(** * GMLib: the TTL cache of [gmlib.js], embedded and verified

    The development follows [src/gmlib.js].  The library is a closure
    [GMLib()] holding three logging functions, the cross-site request
    object [GMXHR] and the cache factory [Cache].  The embedding has
    three layers:

    - [JS]: the fragment of JavaScript values the cache computes on
      (numbers are [NaN] or integers, so that the arithmetic of
      millisecond time stamps is the arithmetic of [Z]), with the
      coercions the source relies on ([ToBoolean] for [if (x)] and
      [x || y], [ToNumber] for [-], [*] and [>], property reads);
    - [JSON]: the host functions [JSON.stringify] and [JSON.parse] on
      that fragment, as a printer and a recursive-descent parser over
      lists of characters;
    - [GMLib]: the source itself, as explicit state passing over the
      browser state (page storage, script storage, clock) and the one
      mutable binding of the closure, [debug].

    [Examples] fixes a few concrete states and producers on which the
    library is run; the facts and the theorems follow the
    definitions. *)

From Stdlib Require Import ZArith List Bool Ascii String Decimal DecimalFacts DecimalZ Lia.
From stdpp Require Import gmap strings.

Local Open Scope Z_scope.

(** ** JavaScript values *)

Module JS.

(** A JavaScript number, restricted to the integers (where double
    arithmetic is exact below 2^53) and [NaN]. *)
Inductive number : Type :=
| NaN
| Num (z : Z).

(** Values: primitives, arrays, and plain objects as the sequence of
    their own properties in property order.  A string is a sequence of
    code units below 256. *)
#[local] Unset Elimination Schemes.
Inductive value : Type :=
| VUndefined
| VNull
| VBool (b : bool)
| VNum (n : number)
| VStr (s : string)
| VArr (elems : list value)
| VObj (props : list (string * value)).
#[local] Set Elimination Schemes.

(** Structural induction through the lists of elements and properties. *)
Section value_induction.
Variable P : value -> Prop.
Hypothesis Hundef : P VUndefined.
Hypothesis Hnull : P VNull.
Hypothesis Hbool : forall b, P (VBool b).
Hypothesis Hnum : forall n, P (VNum n).
Hypothesis Hstr : forall s, P (VStr s).
Hypothesis Harr : forall l, Forall P l -> P (VArr l).
Hypothesis Hobj : forall l, Forall (fun kv => P (snd kv)) l -> P (VObj l).

Fixpoint value_ind (v : value) : P v :=
  match v with
  | VUndefined => Hundef
  | VNull => Hnull
  | VBool b => Hbool b
  | VNum n => Hnum n
  | VStr s => Hstr s
  | VArr l =>
      Harr l ((fix go (l : list value) : Forall P l :=
                 match l with
                 | [] => List.Forall_nil P
                 | e :: l' => List.Forall_cons P e l' (value_ind e) (go l')
                 end) l)
  | VObj l =>
      Hobj l ((fix go (l : list (string * value)) : Forall (fun kv => P (snd kv)) l :=
                 match l with
                 | [] => List.Forall_nil _
                 | kv :: l' => List.Forall_cons _ kv l' (value_ind (snd kv)) (go l')
                 end) l)
  end.
End value_induction.

(** What a [throw] carries: host errors are kept symbolic, anything else
    is the thrown value itself. *)
Inductive error : Type :=
| SyntaxError
| TypeError
| Thrown (v : value).

(** The double quote and the backslash, named once. *)
Definition dquote : ascii := "034"%char.
Definition backslash : ascii := "092"%char.

Definition sub (a b : number) : number :=
  match a, b with
  | Num x, Num y => Num (x - y)
  | _, _ => NaN
  end.

Definition mul (a b : number) : number :=
  match a, b with
  | Num x, Num y => Num (x * y)
  | _, _ => NaN
  end.

(** [a > b]: false as soon as one side is [NaN]. *)
Definition gt (a b : number) : bool :=
  match a, b with
  | Num x, Num y => y <? x
  | _, _ => false
  end.

(** [ToBoolean]: the falsy values are [undefined], [null], [false], [0],
    [NaN] and the empty string. *)
Definition ToBoolean (v : value) : bool :=
  match v with
  | VUndefined | VNull => false
  | VBool b => b
  | VNum NaN => false
  | VNum (Num z) => negb (z =? 0)
  | VStr s => negb (String.eqb s "")
  | VArr _ | VObj _ => true
  end.

(** [a || b] *)
Definition or_else (a b : value) : value :=
  if ToBoolean a then a else b.

(** Decimal digits of an unsigned decimal numeral. *)
Fixpoint digits (u : Decimal.uint) : list ascii :=
  match u with
  | Nil => []
  | D0 u => "0"%char :: digits u
  | D1 u => "1"%char :: digits u
  | D2 u => "2"%char :: digits u
  | D3 u => "3"%char :: digits u
  | D4 u => "4"%char :: digits u
  | D5 u => "5"%char :: digits u
  | D6 u => "6"%char :: digits u
  | D7 u => "7"%char :: digits u
  | D8 u => "8"%char :: digits u
  | D9 u => "9"%char :: digits u
  end.

(** The decimal text of an integer, as [Number.prototype.toString] and
    [JSON.stringify] print an integral number. *)
Definition Z_text (z : Z) : list ascii :=
  match Z.to_int z with
  | Decimal.Pos u => digits u
  | Decimal.Neg u => "-"%char :: digits u
  end.

Definition number_text (n : number) : list ascii :=
  match n with
  | NaN => list_ascii_of_string "NaN"
  | Num z => Z_text z
  end.

Definition is_digit (c : ascii) : bool :=
  (48 <=? nat_of_ascii c)%nat && (nat_of_ascii c <=? 57)%nat.

Definition digit_cons (c : ascii) (u : Decimal.uint) : Decimal.uint :=
  match (nat_of_ascii c - 48)%nat with
  | 0%nat => D0 u
  | 1%nat => D1 u
  | 2%nat => D2 u
  | 3%nat => D3 u
  | 4%nat => D4 u
  | 5%nat => D5 u
  | 6%nat => D6 u
  | 7%nat => D7 u
  | 8%nat => D8 u
  | _ => D9 u
  end.

(** The longest prefix of decimal digits, and what follows it. *)
Fixpoint read_digits (s : list ascii) : Decimal.uint * list ascii :=
  match s with
  | c :: r =>
      if is_digit c
      then let (u, r') := read_digits r in (digit_cons c u, r')
      else (Nil, s)
  | [] => (Nil, [])
  end.

(** White space stripped by [StringToNumber]: tab, line feed, vertical
    tab, form feed, carriage return, space and no-break space. *)
Definition is_space (c : ascii) : bool :=
  let n := nat_of_ascii c in
  ((9 <=? n)%nat && (n <=? 13)%nat) || (n =? 32)%nat || (n =? 160)%nat.

Fixpoint trim_left (s : list ascii) : list ascii :=
  match s with
  | c :: r => if is_space c then trim_left r else s
  | [] => []
  end.

Definition trim (s : list ascii) : list ascii :=
  rev (trim_left (rev (trim_left s))).

(** [StringToNumber] on the integer fragment: the empty or blank string
    is [0], a decimal integer literal with an optional sign is its
    value.  Every other string is [NaN] here; literals with a fraction,
    an exponent or a radix prefix, and [Infinity], denote numbers
    outside the fragment and no statement below depends on them. *)
Definition StringToNumber (s : string) : number :=
  match trim (list_ascii_of_string s) with
  | [] => Num 0
  | c :: r =>
      let '(neg, body) :=
        if Ascii.eqb c "-" then (true, r)
        else if Ascii.eqb c "+" then (false, r)
        else (false, c :: r) in
      match read_digits body with
      | (Nil, _) => NaN
      | (u, []) => Num (if neg then - Z.of_uint u else Z.of_uint u)
      | (_, _ :: _) => NaN
      end
  end.

(** Elements joined by a separator, as [Array.prototype.join]. *)
Fixpoint join (sep : list ascii) (parts : list (list ascii)) : list ascii :=
  match parts with
  | [] => []
  | [p] => p
  | p :: ps => p ++ sep ++ join sep ps
  end.

(** [ToString].  An array is its elements joined by commas, [null] and
    [undefined] elements contributing nothing; a plain object is
    [[object Object]]. *)
Fixpoint ToString_chars (v : value) : list ascii :=
  match v with
  | VUndefined => list_ascii_of_string "undefined"
  | VNull => list_ascii_of_string "null"
  | VBool true => list_ascii_of_string "true"
  | VBool false => list_ascii_of_string "false"
  | VNum n => number_text n
  | VStr s => list_ascii_of_string s
  | VArr l =>
      join [","%char]
        (List.map (fun e => match e with
                            | VUndefined | VNull => []
                            | _ => ToString_chars e
                            end) l)
  | VObj _ => list_ascii_of_string "[object Object]"
  end.

Definition ToString (v : value) : string :=
  string_of_list_ascii (ToString_chars v).

(** [ToNumber]; arrays and objects go through their string. *)
Definition ToNumber (v : value) : number :=
  match v with
  | VUndefined => NaN
  | VNull => Num 0
  | VBool true => Num 1
  | VBool false => Num 0
  | VNum n => n
  | VStr s => StringToNumber s
  | VArr _ | VObj _ => StringToNumber (ToString v)
  end.

(** The own property [k] of an object: with a repeated key the last
    definition wins. *)
Fixpoint own_property (k : string) (props : list (string * value)) : option value :=
  match props with
  | [] => None
  | (k', v) :: rest =>
      match own_property k rest with
      | Some w => Some w
      | None => if String.eqb k k' then Some v else None
      end
  end.

(** The property read [v.k] for a name [k] that no prototype defines
    (such as [stored] and [value]): a [TypeError] on [null] and
    [undefined], the own property of an object, [undefined] otherwise. *)
Definition member (v : value) (k : string) : error + value :=
  match v with
  | VUndefined | VNull => inl TypeError
  | VObj props => inr (default VUndefined (own_property k props))
  | _ => inr VUndefined
  end.

(** [a === b] against a string constant. *)
Definition strict_eq_string (v : value) (s : string) : bool :=
  match v with
  | VStr s' => String.eqb s' s
  | _ => false
  end.

(** [v !== undefined && v !== null] *)
Definition neither_undefined_nor_null (v : value) : bool :=
  match v with
  | VUndefined | VNull => false
  | _ => true
  end.

End JS.

(** ** The host's JSON functions *)

Module JSON.
Import JS.

Definition null_text : list ascii := list_ascii_of_string "null".
Definition true_text : list ascii := list_ascii_of_string "true".
Definition false_text : list ascii := list_ascii_of_string "false".

(** Hexadecimal digit of a nibble, in lower case as [JSON.stringify]
    prints it. *)
Definition hex_digit (n : nat) : ascii :=
  if (n <? 10)%nat then ascii_of_nat (48 + n) else ascii_of_nat (87 + n).

(** Value of a hexadecimal digit in either case. *)
Definition hex_value (c : ascii) : option nat :=
  let n := nat_of_ascii c in
  if ((48 <=? n) && (n <=? 57))%nat then Some (n - 48)%nat
  else if ((97 <=? n) && (n <=? 102))%nat then Some (n - 87)%nat
  else if ((65 <=? n) && (n <=? 70))%nat then Some (n - 55)%nat
  else None.

(** [QuoteJSONString], one code unit: the two-character escapes, a
    [\u00XX] escape for the other control characters, the character
    itself otherwise. *)
Definition escape_char (c : ascii) : list ascii :=
  let n := nat_of_ascii c in
  if (n =? 8)%nat then [backslash; "b"%char]
  else if (n =? 9)%nat then [backslash; "t"%char]
  else if (n =? 10)%nat then [backslash; "n"%char]
  else if (n =? 12)%nat then [backslash; "f"%char]
  else if (n =? 13)%nat then [backslash; "r"%char]
  else if (n =? 34)%nat then [backslash; dquote]
  else if (n =? 92)%nat then [backslash; backslash]
  else if (n <? 32)%nat then
    [backslash; "u"%char; "0"%char; "0"%char; hex_digit (n / 16); hex_digit (n mod 16)]
  else [c].

Definition quote (s : string) : list ascii :=
  dquote :: flat_map escape_char (list_ascii_of_string s) ++ [dquote].

(** [SerializeJSONProperty]: [None] is the result [undefined] (no text).
    A [NaN] prints as [null]; in an array an element without text
    prints as [null]; in an object such a property is left out. *)
Fixpoint serialize (v : value) : option (list ascii) :=
  match v with
  | VUndefined => None
  | VNull => Some null_text
  | VBool b => Some (if b then true_text else false_text)
  | VNum NaN => Some null_text
  | VNum (Num z) => Some (Z_text z)
  | VStr s => Some (quote s)
  | VArr l =>
      Some ("["%char ::
            join [","%char]
              (List.map (fun e => match serialize e with
                                  | Some t => t
                                  | None => null_text
                                  end) l)
            ++ ["]"%char])
  | VObj l =>
      Some ("{"%char ::
            join [","%char]
              (flat_map (fun '(k, e) => match serialize e with
                                        | Some t => [quote k ++ ":"%char :: t]
                                        | None => []
                                        end) l)
            ++ ["}"%char])
  end.

(** [JSON.stringify(v)]: a string, or [undefined] when [v] has no
    text. *)
Definition stringify (v : value) : value :=
  match serialize v with
  | Some t => VStr (string_of_list_ascii t)
  | None => VUndefined
  end.

(** JSON white space: space, tab, line feed, carriage return. *)
Definition is_ws (c : ascii) : bool :=
  let n := nat_of_ascii c in
  (n =? 32)%nat || (n =? 9)%nat || (n =? 10)%nat || (n =? 13)%nat.

Fixpoint skip_ws (s : list ascii) : list ascii :=
  match s with
  | c :: r => if is_ws c then skip_ws r else s
  | [] => []
  end.

(** [strip p s] is what follows the prefix [p] of [s]. *)
Fixpoint strip (p s : list ascii) : option (list ascii) :=
  match p with
  | [] => Some s
  | c :: p' =>
      match s with
      | d :: s' => if Ascii.eqb c d then strip p' s' else None
      | [] => None
      end
  end.

(** The character a two-character escape stands for. *)
Definition unescape (e : ascii) : option ascii :=
  if Ascii.eqb e dquote then Some dquote
  else if Ascii.eqb e backslash then Some backslash
  else if Ascii.eqb e "/" then Some "/"%char
  else if Ascii.eqb e "b" then Some (ascii_of_nat 8)
  else if Ascii.eqb e "f" then Some (ascii_of_nat 12)
  else if Ascii.eqb e "n" then Some (ascii_of_nat 10)
  else if Ascii.eqb e "r" then Some (ascii_of_nat 13)
  else if Ascii.eqb e "t" then Some (ascii_of_nat 9)
  else None.

(** The code unit of a [u] escape with four hexadecimal digits, when
    it is below 256 (the code units of this model's strings). *)
Definition unicode_escape (a b c d : ascii) : option ascii :=
  match hex_value a, hex_value b, hex_value c, hex_value d with
  | Some 0%nat, Some 0%nat, Some h, Some l => Some (ascii_of_nat (16 * h + l))
  | _, _, _, _ => None
  end.

(** The characters of a string literal after its opening quote, up to
    the closing quote, and what follows. *)
Fixpoint parse_chars (s : list ascii) : option (list ascii * list ascii) :=
  match s with
  | [] => None
  | c :: r =>
      if Ascii.eqb c dquote then Some ([], r)
      else if Ascii.eqb c backslash then
        match r with
        | [] => None
        | e :: r1 =>
            if Ascii.eqb e "u" then
              match r1 with
              | h1 :: h2 :: h3 :: h4 :: r2 =>
                  match unicode_escape h1 h2 h3 h4 with
                  | Some u =>
                      match parse_chars r2 with
                      | Some (l, rest) => Some (u :: l, rest)
                      | None => None
                      end
                  | None => None
                  end
              | _ => None
              end
            else
              match unescape e with
              | Some u =>
                  match parse_chars r1 with
                  | Some (l, rest) => Some (u :: l, rest)
                  | None => None
                  end
              | None => None
              end
        end
      else if (nat_of_ascii c <? 32)%nat then None
      else
        match parse_chars r with
        | Some (l, rest) => Some (c :: l, rest)
        | None => None
        end
  end.

(** A numeral with a superfluous leading zero is not JSON. *)
Definition leading_zero (u : Decimal.uint) : bool :=
  match u with
  | D0 Nil => false
  | D0 _ => true
  | _ => false
  end.

(** An integer numeral: an optional minus sign and decimal digits.  A
    fraction or exponent part is left unread, so that a numeral outside
    the integer fragment is refused by the caller. *)
Definition parse_number (s : list ascii) : option (value * list ascii) :=
  let '(neg, body) :=
    match s with
    | c :: r => if Ascii.eqb c "-" then (true, r) else (false, s)
    | [] => (false, s)
    end in
  match read_digits body with
  | (Nil, _) => None
  | (u, rest) =>
      if leading_zero u then None
      else Some (VNum (Num (if neg then - Z.of_uint u else Z.of_uint u)), rest)
  end.

(** The recursive-descent parser.  [fuel] bounds the nesting and the
    number of elements; [parse] below supplies the length of the text,
    which is enough since every step reads a character. *)
Fixpoint parse_value (fuel : nat) (s : list ascii) {struct fuel}
  : option (value * list ascii) :=
  match fuel with
  | O => None
  | S n =>
      match skip_ws s with
      | [] => None
      | c :: r =>
          if Ascii.eqb c "[" then
            match skip_ws r with
            | c' :: r' =>
                if Ascii.eqb c' "]" then Some (VArr [], r')
                else match parse_elements n r with
                     | Some (l, rest) => Some (VArr l, rest)
                     | None => None
                     end
            | [] => None
            end
          else if Ascii.eqb c "{" then
            match skip_ws r with
            | c' :: r' =>
                if Ascii.eqb c' "}" then Some (VObj [], r')
                else match parse_members n r with
                     | Some (l, rest) => Some (VObj l, rest)
                     | None => None
                     end
            | [] => None
            end
          else if Ascii.eqb c dquote then
            match parse_chars r with
            | Some (l, rest) => Some (VStr (string_of_list_ascii l), rest)
            | None => None
            end
          else if Ascii.eqb c "n" then
            match strip (list_ascii_of_string "ull") r with
            | Some rest => Some (VNull, rest)
            | None => None
            end
          else if Ascii.eqb c "t" then
            match strip (list_ascii_of_string "rue") r with
            | Some rest => Some (VBool true, rest)
            | None => None
            end
          else if Ascii.eqb c "f" then
            match strip (list_ascii_of_string "alse") r with
            | Some rest => Some (VBool false, rest)
            | None => None
            end
          else parse_number (c :: r)
      end
  end
with parse_elements (fuel : nat) (s : list ascii) {struct fuel}
  : option (list value * list ascii) :=
  match fuel with
  | O => None
  | S n =>
      match parse_value n s with
      | Some (v, r) =>
          match skip_ws r with
          | c :: r' =>
              if Ascii.eqb c "," then
                match parse_elements n r' with
                | Some (l, rest) => Some (v :: l, rest)
                | None => None
                end
              else if Ascii.eqb c "]" then Some ([v], r')
              else None
          | [] => None
          end
      | None => None
      end
  end
with parse_members (fuel : nat) (s : list ascii) {struct fuel}
  : option (list (string * value) * list ascii) :=
  match fuel with
  | O => None
  | S n =>
      match skip_ws s with
      | q :: r =>
          if Ascii.eqb q dquote then
            match parse_chars r with
            | Some (k, r1) =>
                match skip_ws r1 with
                | c :: r2 =>
                    if Ascii.eqb c ":" then
                      match parse_value n r2 with
                      | Some (v, r3) =>
                          match skip_ws r3 with
                          | c' :: r4 =>
                              if Ascii.eqb c' "," then
                                match parse_members n r4 with
                                | Some (l, rest) =>
                                    Some ((string_of_list_ascii k, v) :: l, rest)
                                | None => None
                                end
                              else if Ascii.eqb c' "}"
                              then Some ([(string_of_list_ascii k, v)], r4)
                              else None
                          | [] => None
                          end
                      | None => None
                      end
                    else None
                | [] => None
                end
            | None => None
            end
          else None
      | [] => None
      end
  end.

(** [JSON.parse(text)]: [None] is a thrown [SyntaxError].  The
    argument is converted to a string, which must be one value, white
    space around it allowed. *)
Definition parse (text : value) : option value :=
  let s := list_ascii_of_string (ToString text) in
  match parse_value (S (List.length s)) s with
  | Some (v, rest) =>
      match skip_ws rest with
      | [] => Some v
      | _ :: _ => None
      end
  | None => None
  end.

(** The values that [stringify] and [parse] transport unchanged: no
    [undefined] and no [NaN] at any depth. *)
Fixpoint serializable (v : value) : bool :=
  match v with
  | VUndefined => false
  | VNum NaN => false
  | VNull | VBool _ | VNum (Num _) | VStr _ => true
  | VArr l => forallb serializable l
  | VObj l => forallb (fun '(_, e) => serializable e) l
  end.

(** *** Notions used to state that a text reads back *)

(** What may follow a numeral: anything but a digit. *)
Definition no_digit_head (s : list ascii) : Prop :=
  match s with
  | [] => True
  | c :: _ => is_digit c = false
  end.

(** The head of a numeral is none of the characters the parser
    dispatches on before it tries a number. *)
Definition numeral_head (c : ascii) : Prop :=
  is_ws c = false /\ Ascii.eqb c "[" = false /\ Ascii.eqb c "{" = false /\
  Ascii.eqb c dquote = false /\ Ascii.eqb c "n" = false /\
  Ascii.eqb c "t" = false /\ Ascii.eqb c "f" = false /\
  Ascii.eqb c "]" = false /\ Ascii.eqb c "}" = false.

(** The first character of a value's text: not white space, and not a
    closing bracket. *)
Definition value_head (t : list ascii) : Prop :=
  exists c r, t = c :: r /\ is_ws c = false /\
              Ascii.eqb c "]" = false /\ Ascii.eqb c "}" = false.

(** The text of an array element and of an object member, as
    [serialize] lays them out. *)
Definition elem_text (e : value) : list ascii :=
  match serialize e with
  | Some t => t
  | None => null_text
  end.

Definition member_text (kv : string * value) : list (list ascii) :=
  let '(k, e) := kv in
  match serialize e with
  | Some t => [quote k ++ ":"%char :: t]
  | None => []
  end.

Definition pair_text (kv : string * value) : list ascii :=
  quote (fst kv) ++ ":"%char :: elem_text (snd kv).

(** Fuel that suffices to read a value back. *)
Fixpoint weight (v : value) : nat :=
  match v with
  | VArr l => S (list_sum (List.map (fun e => S (weight e)) l))
  | VObj l => S (list_sum (List.map (fun '(_, e) => S (weight e)) l))
  | _ => 1
  end.

(** A value has a text, and the parser reads it back with any fuel
    from [weight v] on, whatever follows. *)
Definition reads_back (v : value) : Prop :=
  exists t, serialize v = Some t /\
    forall fuel rest, (weight v <= fuel)%nat -> no_digit_head rest ->
      parse_value fuel (t ++ rest) = Some (v, rest).

End JSON.

(** ** The library *)

Module GMLib.
Import JS.

(** *** State

    What the library reads and writes outside itself: the page's
    [localStorage] (strings), the script's value store behind
    [GM_getValue]/[GM_setValue] (any value), and the clock read by
    [new Date().getTime()].  Inside the closure of [GMLib()] there is
    one mutable binding, the function [debug]: [debug_silenced] tells
    whether it has been rebound to [() => undefined]. *)
Record state : Type := {
  localStorage : gmap string string;
  GM_values : gmap string value;
  clock : Z;
  debug_silenced : bool
}.

Definition with_localStorage (m : gmap string string) (s : state) : state :=
  {| localStorage := m; GM_values := GM_values s;
     clock := clock s; debug_silenced := debug_silenced s |}.

Definition with_GM_values (m : gmap string value) (s : state) : state :=
  {| localStorage := localStorage s; GM_values := m;
     clock := clock s; debug_silenced := debug_silenced s |}.

Definition with_debug_silenced (b : bool) (s : state) : state :=
  {| localStorage := localStorage s; GM_values := GM_values s;
     clock := clock s; debug_silenced := b |}.

(** *** Logging

    A library call returns the console entries it emitted, in order.
    [Fn] stands for a function printed by the console (the producer). *)
Inductive level : Type := Debug | Warn | Error.

Inductive log_arg : Type :=
| Text (s : string)
| Val (v : value)
| Fn.

Definition log_entry : Type := level * list log_arg.

(** [function debug(...args) { console.debug('[GMLib]', ...args); }],
    or the no-op it is replaced with. *)
Definition debug (args : list log_arg) (s : state) : list log_entry :=
  if debug_silenced s then [] else [(Debug, Text "[GMLib]" :: args)].

(** [function warn(...args) { console.warn('[GMLib]', ...args); }] *)
Definition warn (args : list log_arg) : list log_entry :=
  [(Warn, Text "[GMLib]" :: args)].

(** [function error(...args) { console.error('[GMLib]', ...args); }] *)
Definition error (args : list log_arg) : list log_entry :=
  [(Error, Text "[GMLib]" :: args)].

(** *** Promises, by their final state *)
Inductive promise : Type :=
| Resolved (v : value)
| Rejected (e : JS.error)
| Pending.

(** *** GMXHR.get

    [resp] is the response the host hands to [onload], if it ever
    does.  The header argument only travels to the host. *)
Record response : Type := {
  status : Z;
  responseText : string;
  statusText : string
}.

Module GMXHR.

Definition get (url : string) (resp : option response) (s : state)
  : promise * list log_entry :=
  let log := debug [Text "GMXHR GET"; Text url] s in
  match resp with
  | Some response =>
      if (200 <=? status response) && (status response <? 300)
      then (Resolved (VStr (responseText response)), log)
      else (Rejected (Thrown (VNum (Num (status response)))),
            log ++ error [Text "Failed to get: "; Text url;
                          Text (" (" +:+ ToString (VNum (Num (status response))) +:+ ") ");
                          Text (statusText response)])
  | None => (Pending, log)
  end.

(** [getJson(url)] is [this.get(url, headers).then(json => JSON.parse(json))]:
    a rejection of [get] passes through [then] unchanged, and a throw
    of [JSON.parse] inside the callback rejects the promise that [then]
    returns.  The [Accept] header only travels to the host. *)
Definition getJson (url : string) (resp : option response) (s : state)
  : promise * list log_entry :=
  match get url resp s with
  | (Resolved json, log) =>
      match JSON.parse json with
      | Some v => (Resolved v, log)
      | None => (Rejected SyntaxError, log)
      end
  | (Rejected e, log) => (Rejected e, log)
  | (Pending, log) => (Pending, log)
  end.

End GMXHR.

(** *** Storage adapters: the object literals of [siteStorage] and
    [scriptStorage] *)
Record Storage : Type := {
  get : string -> state -> value;
  set : string -> value -> state -> state;
  delete : string -> state -> state;
  keys : state -> list string
}.

(** [localStorage[key]] reads a string or [undefined]; an assignment
    stores the string of the value.  The cache only passes keys that
    begin with its namespace, which name no built-in member of the
    storage object; the adapter is modelled for those keys (under a
    key such as [length] the host reads the built-in member). *)
Definition siteStorage : Storage := {|
  get := fun key s =>
    match localStorage s !! key with
    | Some text => VStr text
    | None => VUndefined
    end;
  set := fun key value s =>
    with_localStorage (<[key := ToString value]> (localStorage s)) s;
  delete := fun key s =>
    with_localStorage (base.delete key (localStorage s)) s;
  keys := fun s => (map_to_list (localStorage s)).*1
|}.

Definition scriptStorage : Storage := {|
  get := fun key s => default VUndefined (GM_values s !! key);
  set := fun key value s =>
    with_GM_values (<[key := value]> (GM_values s)) s;
  delete := fun key s =>
    with_GM_values (base.delete key (GM_values s)) s;
  keys := fun s => (map_to_list (GM_values s)).*1
|}.

Definition invalid_storage_type : string :=
  "Invalid storage type! Valid options are "
  +:+ String dquote ("local" +:+ String dquote (" or "
  +:+ String dquote ("script" +:+ String dquote ""))).

Definition chooseStorage (storageType : value) : JS.error + Storage :=
  if strict_eq_string storageType "local" then inr siteStorage
  else if strict_eq_string storageType "script" then inr scriptStorage
  else inl (Thrown (VStr invalid_storage_type)).

(** *** The cache instance: what the closure of [Cache] captures *)
Record instance : Type := {
  TTL : number;
  storage : Storage
}.

Definition NAMESPACE : string := "gmlib|".

(** [Cache(storageType, ttl, quiet)].  The order is the source's: the
    TTL, then the rebinding of [debug], then the choice of the storage,
    which may throw. *)
Definition Cache (storageType ttl quiet : value) (s : state)
  : (JS.error + instance) * state :=
  let TTL := mul (ToNumber (or_else ttl (VNum (Num (3600 * 24 * 2))))) (Num 1000) in
  let s' := if ToBoolean quiet then with_debug_silenced true s else s in
  match chooseStorage storageType with
  | inr storage => (inr {| TTL := TTL; storage := storage |}, s')
  | inl e => (inl e, s')
  end.

(** *** Producers

    The function [f] handed to [cache] runs on the state and returns a
    value, throws, or returns a promise.  For a promise, the state it
    gives back is the one at which the [await] resumes. *)
Inductive settlement : Type :=
| Fulfils (v : value)
| Rejects (e : JS.error)
| NeverSettles.

Inductive produced : Type :=
| Returns (v : value)
| Throws (e : JS.error)
| ReturnsPromise (p : settlement).

Definition producer : Type := state -> produced * state.

(** The outcome of a call [cache(key, f)]: the final state of the
    promise it returns, whether [f] was called, the console entries,
    the error the executor lost (the rejection of the [async] executor's
    own promise, which nothing observes), and the state. *)
Record call : Type := {
  settled : promise;
  invoked : bool;
  logged : list log_entry;
  lost : option JS.error;
  final : state
}.

(** The first block of the executor: what the stored item yields. *)
Inductive lookup : Type :=
| Fresh (v : value)
| Stale
| Failed (e : JS.error).

Definition read_item (c : instance) (itemJson : value) (now : Z) : lookup :=
  if ToBoolean itemJson then
    match JSON.parse itemJson with
    | Some item =>
        match member item "stored" with
        | inr stored =>
            let since := sub (Num now) (ToNumber stored) in
            let expired := gt since (TTL c) in
            if negb expired then
              match member item "value" with
              | inr v => Fresh v
              | inl e => Failed e
              end
            else Stale
        | inl e => Failed e
        end
    | None => Failed SyntaxError
    end
  else Stale.

(** The object literal [{stored: ..., value: ...}]. *)
Definition entry (stored : Z) (v : value) : value :=
  VObj [("stored", VNum (Num stored)); ("value", v)].

Definition refusal_message : string :=
  "Cache: WARNING Refusing to cache null or undefined return value of ".

(** The last block of the executor, once [value] is known. *)
Definition write_back (c : instance) (key : string) (v : value)
    (log : list log_entry) (s : state) : call :=
  if neither_undefined_nor_null v then
    {| settled := Resolved v; invoked := true; logged := log; lost := None;
       final := set (storage c) (NAMESPACE +:+ key)
                  (JSON.stringify (entry (clock s) v)) s |}
  else
    {| settled := Resolved v; invoked := true;
       logged := log ++ warn [Text refusal_message; Fn];
       lost := None; final := s |}.

Definition miss_message (key : string) : string :=
  "Cache miss for key " +:+ String dquote (key +:+ String dquote ", calling").

(** [cache(key, f)] *)
Definition cache (c : instance) (key : string) (f : producer) (s : state) : call :=
  let itemJson := get (storage c) (NAMESPACE +:+ key) s in
  match read_item c itemJson (clock s) with
  | Fresh v =>
      {| settled := Resolved v; invoked := false; logged := [];
         lost := None; final := s |}
  | Failed e =>
      {| settled := Pending; invoked := false; logged := [];
         lost := Some e; final := s |}
  | Stale =>
      let log := debug [Text (miss_message key); Fn] s in
      match f s with
      | (Returns v, s') => write_back c key v log s'
      | (ReturnsPromise (Fulfils v), s') => write_back c key v log s'
      | (Throws e, s') =>
          {| settled := Pending; invoked := true; logged := log;
             lost := Some e; final := s' |}
      | (ReturnsPromise (Rejects e), s') =>
          {| settled := Pending; invoked := true; logged := log;
             lost := Some e; final := s' |}
      | (ReturnsPromise NeverSettles, s') =>
          {| settled := Pending; invoked := true; logged := log;
             lost := None; final := s' |}
      end
  end.

(** [cache.clear(prefix)] *)
Definition clear (c : instance) (prefix : value) (s : state)
  : list log_entry * state :=
  let log :=
    if ToBoolean prefix
    then debug [Text "Cache: Clearing all cached items with prefix:"; Val prefix] s
    else debug [Text "Cache: Clearing all cached items"] s in
  let keyPrefix := NAMESPACE +:+ ToString (or_else prefix (VStr "")) in
  (log,
   foldl (fun s k => delete (storage c) k s) s
     (List.filter (fun k => String.prefix keyPrefix k) (keys (storage c) s))).

End GMLib.

(** ** Concrete states, instances and producers

    Used to run the library on explicit inputs. *)

Module Examples.
Import JS GMLib.

(** An empty browser at time 1000 ms, [debug] not yet rebound. *)
Definition s0 : state :=
  {| localStorage := ∅; GM_values := ∅; clock := 1000; debug_silenced := false |}.

(** The state [d] milliseconds later. *)
Definition later (d : Z) (s : state) : state :=
  {| localStorage := localStorage s; GM_values := GM_values s;
     clock := clock s + d; debug_silenced := debug_silenced s |}.

(** The page storage holding the raw text [raw] under [key]. *)
Definition holding (key raw : string) (s : state) : state :=
  with_localStorage (<[key := raw]> (localStorage s)) s.

(** [Cache('local')] and [Cache('local', -1)], as [Cache] builds them. *)
Definition two_days : instance := {| TTL := Num 172800000; storage := siteStorage |}.
Definition negative : instance := {| TTL := Num (-1000); storage := siteStorage |}.

(** [() => v], [() => { throw e }], [() => Promise.reject(e)]. *)
Definition returning (v : value) : producer := fun s => (Returns v, s).
Definition throwing (e : JS.error) : producer := fun s => (Throws e, s).
Definition rejecting (e : JS.error) : producer := fun s => (ReturnsPromise (Rejects e), s).

(** The text the cache writes for the value ["8.9"] at time 1000. *)
Definition rating_text : string :=
  ToString (JSON.stringify (entry 1000 (VStr "8.9"))).

(** The text of an object with a [value] but no [stored] member. *)
Definition unstamped_text : string :=
  ToString (JSON.stringify (VObj [("value", VStr "old")])).

(** [Cache('script')] and [Cache('local', 60)]. *)
Definition script_two_days : instance :=
  {| TTL := Num 172800000; storage := scriptStorage |}.
Definition one_minute : instance := {| TTL := Num 60000; storage := siteStorage |}.

(** Responses of the host: a success carrying [body], and a failure. *)
Definition ok_response (body : string) : response :=
  {| status := 200; responseText := body; statusText := "OK" |}.
Definition not_found : response :=
  {| status := 404; responseText := "gone"; statusText := "Not Found" |}.

End Examples.

(** ** Facts about the JSON functions *)

Module JSONFacts.
Import JS JSON.


Lemma read_digits_digits u rest :
  no_digit_head rest -> read_digits (digits u ++ rest) = (u, rest).
Proof.
  intros Hrest.
  induction u; simpl; try (rewrite IHu; reflexivity).
  destruct rest as [|c r]; simpl; [reflexivity|].
  simpl in Hrest. now rewrite Hrest.
Qed.

(** Each escaped character reads back as itself. *)
Lemma parse_chars_escape_char c tail :
  parse_chars (escape_char c ++ tail) =
  match parse_chars tail with
  | Some (l, rest) => Some (c :: l, rest)
  | None => None
  end.
Proof.
  destruct c as [[] [] [] [] [] [] [] []]; reflexivity.
Qed.

Lemma parse_chars_quote_body l rest :
  parse_chars (flat_map escape_char l ++ dquote :: rest) = Some (l, rest).
Proof.
  induction l as [|c l IH]; [reflexivity|].
  simpl flat_map. rewrite <- app_assoc, parse_chars_escape_char, IH. reflexivity.
Qed.

Lemma unorm_fixed_no_leading_zero u : unorm u = u -> leading_zero u = false.
Proof.
  destruct u as [|u| | | | | | | | |]; try reflexivity.
  rewrite unorm_D0. unfold unorm.
  destruct (nzhead u) eqn:E; intros H;
    try (rewrite <- E in H; now apply nzhead_nonzero in H).
  now inversion H.
Qed.

Lemma to_uint_normal p : unorm (Pos.to_uint p) = Pos.to_uint p.
Proof.
  rewrite <- (DecimalPos.Unsigned.to_of (Pos.to_uint p)).
  now rewrite DecimalPos.Unsigned.of_to.
Qed.

Lemma digits_head u : u <> Nil ->
  exists c r, digits u = c :: r /\ numeral_head c /\ Ascii.eqb c "-" = false.
Proof.
  destruct u; [congruence| ..]; intros _; eexists _, _; (split; [reflexivity|]);
    unfold numeral_head; repeat split; reflexivity.
Qed.

Lemma parse_number_digits (neg : bool) u rest :
  u <> Nil -> unorm u = u -> no_digit_head rest ->
  parse_number ((if neg then ["-"%char] else []) ++ digits u ++ rest) =
  Some (VNum (Num (if neg then - Z.of_uint u else Z.of_uint u)), rest).
Proof.
  intros Hnil Hnorm Hrest.
  assert (Hread : parse_number ((if neg then ["-"%char] else []) ++ digits u ++ rest) =
                  match read_digits (digits u ++ rest) with
                  | (Nil, _) => None
                  | (u, rest) =>
                      if leading_zero u then None
                      else Some (VNum (Num (if neg then - Z.of_uint u else Z.of_uint u)), rest)
                  end).
  { destruct neg; [reflexivity|].
    destruct (digits_head u Hnil) as (c & r & E & _ & Hm).
    unfold parse_number. simpl app. rewrite E. simpl app. cbv iota. rewrite Hm. reflexivity. }
  rewrite Hread, read_digits_digits by assumption.
  rewrite (unorm_fixed_no_leading_zero _ Hnorm).
  destruct u; congruence.
Qed.

Lemma parse_number_Z_text z rest :
  no_digit_head rest ->
  parse_number (Z_text z ++ rest) = Some (VNum (Num z), rest).
Proof.
  intros Hrest. unfold Z_text.
  pose proof (DecimalZ.of_to z) as Hz.
  destruct z as [|p|p]; simpl Z.to_int in *; cbv iota; simpl in Hz.
  - apply (parse_number_digits false Decimal.zero); [discriminate|reflexivity|assumption].
  - etransitivity;
      [apply (parse_number_digits false (Pos.to_uint p) rest
                (DecimalPos.Unsigned.to_uint_nonnil p) (to_uint_normal p) Hrest)|].
    cbv iota. now rewrite Hz.
  - etransitivity;
      [apply (parse_number_digits true (Pos.to_uint p) rest
                (DecimalPos.Unsigned.to_uint_nonnil p) (to_uint_normal p) Hrest)|].
    cbv iota. now rewrite Hz.
Qed.

Lemma serialize_head v t : serialize v = Some t -> value_head t.
Proof.
  unfold value_head.
  destruct v as [| |[]|[|z]|s|l|l]; simpl; intros [= <-];
    try (eexists _, _; repeat split; reflexivity).
  unfold Z_text. destruct (Z.to_int z) as [u|u] eqn:E.
  - assert (Hu : u <> Nil).
    { destruct z; simpl in E; inversion E; subst;
        [discriminate | apply DecimalPos.Unsigned.to_uint_nonnil]. }
    destruct (digits_head u Hu) as (c & r & -> & Hh & _).
    exists c, r. unfold numeral_head in Hh. tauto.
  - eexists _, _; repeat split; reflexivity.
Qed.

Lemma parse_elements_join l :
  l <> [] -> Forall reads_back l ->
  forall fuel rest,
    (list_sum (List.map (fun e => S (weight e)) l) <= fuel)%nat ->
    parse_elements fuel (join [","%char] (List.map elem_text l) ++ "]"%char :: rest)
    = Some (l, rest).
Proof.
  intros Hne Hall. induction Hall as [|e l (t & Ht & He) Hall IH]; [congruence|].
  intros fuel rest Hfuel. simpl in Hfuel.
  destruct fuel as [|n]; [lia|].
  assert (Het : elem_text e = t) by (unfold elem_text; now rewrite Ht).
  destruct l as [|e' l'].
  - simpl. rewrite Het, He by (simpl; auto with lia). reflexivity.
  - change (List.map elem_text (e :: e' :: l'))
      with (elem_text e :: List.map elem_text (e' :: l')).
    change (join [","%char] (elem_text e :: List.map elem_text (e' :: l')))
      with (elem_text e ++ [","%char] ++ join [","%char] (List.map elem_text (e' :: l'))).
    rewrite Het. rewrite <- !app_assoc.
    set (J := join [","%char] (List.map elem_text (e' :: l'))) in *.
    set (W := list_sum (List.map (fun e => S (weight e)) (e' :: l'))) in *.
    cbn [parse_elements]. rewrite He by (simpl; auto with lia).
    simpl. rewrite IH; [reflexivity|congruence|lia].
Qed.

Lemma parse_members_step n k e t tail :
  parse_value n (t ++ tail) = Some (e, tail) ->
  parse_members (S n) (quote k ++ ":"%char :: t ++ tail) =
  match skip_ws tail with
  | c' :: r4 =>
      if Ascii.eqb c' ","
      then match parse_members n r4 with
           | Some (l, rest) => Some ((k, e) :: l, rest)
           | None => None
           end
      else if Ascii.eqb c' "}" then Some ([(k, e)], r4) else None
  | [] => None
  end.
Proof.
  intros He. unfold quote.
  cbn [parse_members app skip_ws].
  change (is_ws dquote) with false. cbv iota.
  change (Ascii.eqb dquote dquote) with true. cbv iota.
  rewrite <- app_assoc. cbn [app].
  rewrite parse_chars_quote_body.
  cbn [skip_ws]. change (is_ws ":") with false. cbv iota.
  change (Ascii.eqb ":" ":") with true. cbv iota.
  rewrite He, string_of_list_ascii_of_string. reflexivity.
Qed.

Lemma parse_members_join l :
  l <> [] -> Forall (fun kv => reads_back (snd kv)) l ->
  forall fuel rest,
    (list_sum (List.map (fun '(_, e) => S (weight e)) l) <= fuel)%nat ->
    parse_members fuel (join [","%char] (List.map pair_text l) ++ "}"%char :: rest)
    = Some (l, rest).
Proof.
  intros Hne Hall. induction Hall as [|[k e] l (t & Ht & He) Hall IH]; [congruence|].
  intros fuel rest Hfuel. simpl in Hfuel. cbn [snd] in Ht, He.
  destruct fuel as [|n]; [lia|].
  assert (Het : pair_text (k, e) = quote k ++ ":"%char :: t)
    by (cbn [snd] in Ht; unfold pair_text, elem_text; cbn [fst snd]; now rewrite Ht).
  destruct l as [|kv' l'].
  - cbn [List.map join]. rewrite Het. rewrite <- app_assoc. cbn [app].
    rewrite (parse_members_step n k e t) by (apply He; simpl; auto with lia).
    reflexivity.
  - change (List.map pair_text ((k, e) :: kv' :: l'))
      with (pair_text (k, e) :: List.map pair_text (kv' :: l')).
    change (join [","%char] (pair_text (k, e) :: List.map pair_text (kv' :: l')))
      with (pair_text (k, e) ++ [","%char] ++ join [","%char] (List.map pair_text (kv' :: l'))).
    rewrite Het.
    set (J := join [","%char] (List.map pair_text (kv' :: l'))) in *.
    set (W := list_sum (List.map (fun '(_, e) => S (weight e)) (kv' :: l'))) in *.
    rewrite <- !app_assoc. cbn [app].
    rewrite (parse_members_step n k e t) by (apply He; simpl; auto with lia).
    simpl. rewrite IH; [reflexivity|congruence|lia].
Qed.

Lemma join_head (parts : list (list ascii)) p ps :
  parts = p :: ps -> value_head p -> forall tail,
  exists c r, join [","%char] parts ++ tail = c :: r /\ is_ws c = false /\
              Ascii.eqb c "]" = false /\ Ascii.eqb c "}" = false.
Proof.
  intros -> (c & r & -> & H) tail.
  destruct ps; simpl; eauto.
Qed.

Lemma Forall_serializable_reads_back (l : list value) :
  Forall (fun v => serializable v = true -> reads_back v) l ->
  forallb serializable l = true -> Forall reads_back l.
Proof.
  induction 1 as [|e l He _ IH]; simpl; [constructor|].
  intros [H1 H2]%andb_true_iff. constructor; auto.
Qed.

Lemma Forall_serializable_reads_back_props (l : list (string * value)) :
  Forall (fun kv => serializable (snd kv) = true -> reads_back (snd kv)) l ->
  forallb (fun '(_, e) => serializable e) l = true ->
  Forall (fun kv => reads_back (snd kv)) l.
Proof.
  induction 1 as [|[k e] l He _ IH]; simpl; [constructor|].
  intros [H1 H2]%andb_true_iff. constructor; auto.
Qed.

Lemma Z_text_head z : exists c r, Z_text z = c :: r /\ numeral_head c.
Proof.
  unfold Z_text. destruct (Z.to_int z) as [u|u] eqn:E.
  - assert (Hu : u <> Nil).
    { destruct z; simpl in E; inversion E; subst;
        [discriminate | apply DecimalPos.Unsigned.to_uint_nonnil]. }
    destruct (digits_head u Hu) as (c & r & -> & Hh & _). eauto.
  - eexists _, _. split; [reflexivity|]. unfold numeral_head. repeat split; reflexivity.
Qed.

Lemma parse_value_numeral n c r :
  numeral_head c -> parse_value (S n) (c :: r) = parse_number (c :: r).
Proof.
  intros (H1 & H2 & H3 & H4 & H5 & H6 & H7 & _).
  cbn [parse_value skip_ws].
  now rewrite H1, H2, H3, H4, H5, H6, H7.
Qed.

Lemma parse_value_array n r :
  parse_value (S n) ("["%char :: r) =
  match skip_ws r with
  | c' :: r' =>
      if Ascii.eqb c' "]" then Some (VArr [], r')
      else match parse_elements n r with
           | Some (l, rest) => Some (VArr l, rest)
           | None => None
           end
  | [] => None
  end.
Proof. reflexivity. Qed.

Lemma parse_value_object n r :
  parse_value (S n) ("{"%char :: r) =
  match skip_ws r with
  | c' :: r' =>
      if Ascii.eqb c' "}" then Some (VObj [], r')
      else match parse_members n r with
           | Some (l, rest) => Some (VObj l, rest)
           | None => None
           end
  | [] => None
  end.
Proof. reflexivity. Qed.

Lemma parse_value_string n r :
  parse_value (S n) (dquote :: r) =
  match parse_chars r with
  | Some (l, rest) => Some (VStr (string_of_list_ascii l), rest)
  | None => None
  end.
Proof. reflexivity. Qed.

Lemma serialize_array l :
  serialize (VArr l) =
  Some ("["%char :: join [","%char] (List.map elem_text l) ++ ["]"%char]).
Proof. reflexivity. Qed.

Lemma serialize_object l :
  serialize (VObj l) =
  Some ("{"%char :: join [","%char] (flat_map member_text l) ++ ["}"%char]).
Proof. reflexivity. Qed.

Lemma member_text_serializable l :
  Forall (fun kv => reads_back (snd kv)) l ->
  flat_map member_text l = List.map pair_text l.
Proof.
  induction 1 as [|[k e] l (t & Ht & _) _ IH]; [reflexivity|].
  cbn [snd] in Ht. cbn [flat_map List.map app]. rewrite IH.
  unfold member_text, pair_text, elem_text. cbn [fst snd]. now rewrite Ht.
Qed.

Theorem serializable_reads_back v : serializable v = true -> reads_back v.
Proof.
  induction v as [| |b|[|z]|s|l IH|l IH] using value_ind;
    cbn [serializable]; try discriminate; intros Hs.
  - exists null_text. split; [reflexivity|].
    intros [|n] rest Hf _; [simpl in Hf; lia|reflexivity].
  - eexists. split; [reflexivity|]. intros [|n] rest Hf _; [simpl in Hf; lia|].
    destruct b; reflexivity.
  - eexists. split; [reflexivity|]. intros [|n] rest Hf Hrest; [simpl in Hf; lia|].
    pose proof (parse_number_Z_text z rest Hrest) as Hp.
    destruct (Z_text_head z) as (c & r & E & Hh).
    rewrite E in *. cbn [app] in *. now rewrite parse_value_numeral.
  - eexists. split; [reflexivity|]. intros [|n] rest Hf _; [simpl in Hf; lia|].
    unfold quote. cbn [app]. rewrite parse_value_string, <- app_assoc. cbn [app].
    now rewrite parse_chars_quote_body, string_of_list_ascii_of_string.
  - apply Forall_serializable_reads_back in IH; [|assumption].
    eexists. split; [apply serialize_array|].
    intros [|n] rest Hf _; [simpl in Hf; lia|].
    cbn [app]. rewrite parse_value_array, <- app_assoc. cbn [app].
    destruct l as [|e l]; [reflexivity|].
    assert (Hhead : value_head (elem_text e)).
    { inversion IH as [|? ? (t & Ht & _) _]; subst.
      unfold elem_text. rewrite Ht. eapply serialize_head; eauto. }
    destruct (join_head (List.map elem_text (e :: l)) _ _ eq_refl Hhead ("]"%char :: rest))
      as (c & r & E & Hws & Hb & _).
    rewrite parse_elements_join; [|congruence|assumption|simpl in *; lia].
    rewrite E. cbn [skip_ws]. now rewrite Hws, Hb.
  - apply Forall_serializable_reads_back_props in IH; [|assumption].
    eexists. split; [apply serialize_object|].
    intros [|n] rest Hf _; [simpl in Hf; lia|].
    rewrite member_text_serializable by assumption.
    cbn [app]. rewrite parse_value_object, <- app_assoc. cbn [app].
    destruct l as [|[k e] l]; [reflexivity|].
    assert (Hhead : value_head (pair_text (k, e))).
    { exists dquote. eexists. repeat split; reflexivity. }
    destruct (join_head (List.map pair_text ((k, e) :: l)) _ _ eq_refl Hhead ("}"%char :: rest))
      as (c & r & E & Hws & _ & Hb).
    rewrite parse_members_join; [|congruence|assumption|simpl in *; lia].
    rewrite E. cbn [skip_ws]. now rewrite Hws, Hb.
Qed.

Lemma join_weight {A} (w : A -> nat) (text : A -> list ascii) (l : list A) :
  Forall (fun a => (w a <= List.length (text a))%nat) l ->
  (list_sum (List.map (fun a => S (w a)) l)
   <= S (List.length (join [","%char] (List.map text l))))%nat.
Proof.
  induction 1 as [|a l Ha _ IH]; [simpl; lia|].
  destruct l as [|b l]; [simpl in *; lia|].
  change (List.map text (a :: b :: l)) with (text a :: List.map text (b :: l)).
  change (join [","%char] (text a :: List.map text (b :: l)))
    with (text a ++ [","%char] ++ join [","%char] (List.map text (b :: l))).
  set (J := join [","%char] (List.map text (b :: l))) in *.
  change (List.map (fun a => S (w a)) (a :: b :: l))
    with (S (w a) :: List.map (fun a => S (w a)) (b :: l)).
  set (W := List.map (fun a => S (w a)) (b :: l)) in *.
  clearbody J W. change (list_sum (S (w a) :: W)) with (S (w a) + list_sum W)%nat.
  rewrite !length_app. change (List.length [","%char]) with 1%nat. lia.
Qed.

Lemma weight_le_length v :
  serializable v = true ->
  forall t, serialize v = Some t -> (weight v <= List.length t)%nat.
Proof.
  induction v as [| |b|[|z]|s|l IH|l IH] using value_ind;
    cbn [serializable]; try discriminate; intros Hs t Ht.
  1-4: destruct (serialize_head _ _ Ht) as (c & r & -> & _); simpl; lia.
  - rewrite serialize_array in Ht. injection Ht as <-.
    cbn [weight List.length]. rewrite length_app. cbn [List.length].
    assert (H : Forall (fun e => (weight e <= List.length (elem_text e))%nat) l).
    { clear -IH Hs. induction IH as [|e l He _ IHl]; [constructor|].
      simpl in Hs. apply andb_true_iff in Hs as [H1 H2]. constructor; [|auto].
      unfold elem_text. destruct (serialize e) eqn:E; [now apply He|].
      destruct e as [| | |[]| | |]; simpl in *; discriminate. }
    pose proof (join_weight weight elem_text l H). lia.
  - assert (Hrb : Forall (fun kv => reads_back (snd kv)) l).
    { clear -Hs. induction l as [|[k e] l IHl]; [constructor|].
      simpl in Hs. apply andb_true_iff in Hs as [H1 H2].
      constructor; [now apply serializable_reads_back|auto]. }
    rewrite serialize_object, member_text_serializable in Ht by assumption.
    injection Ht as <-.
    cbn [weight List.length]. rewrite length_app. cbn [List.length].
    assert (H : Forall (fun kv : string * value =>
                          (weight (snd kv) <= List.length (pair_text kv))%nat) l).
    { clear -IH Hs. induction IH as [|[k e] l He _ IHl]; [constructor|].
      simpl in Hs. apply andb_true_iff in Hs as [H1 H2]. constructor; [|auto].
      unfold pair_text, elem_text. cbn [fst snd] in *.
      destruct (serialize e) eqn:E.
      - specialize (He H1 _ eq_refl). rewrite length_app. simpl. lia.
      - destruct e as [| | |[]| | |]; simpl in *; discriminate. }
    pose proof (join_weight (fun kv => weight (snd kv)) pair_text l H) as Hj.
    assert (Hsum : List.map (fun '(_, e) => S (weight e)) l
                   = List.map (fun kv : string * value => S (weight (snd kv))) l).
    { apply map_ext. now intros []. }
    rewrite Hsum. lia.
Qed.

(** [parse(stringify(v))] is [v] again. *)
Theorem parse_stringify v :
  serializable v = true -> parse (stringify v) = Some v.
Proof.
  intros Hs. destruct (serializable_reads_back v Hs) as (t & Ht & Hread).
  unfold stringify, parse, ToString. rewrite Ht.
  cbn [ToString_chars].
  rewrite !list_ascii_of_string_of_list_ascii.
  pose proof (weight_le_length v Hs t Ht) as Hw.
  rewrite <- (app_nil_r t) at 2.
  rewrite Hread; [reflexivity|lia|exact I].
Qed.

End JSONFacts.

(** ** Facts about the library *)

Module GMLibFacts.
Import JS GMLib.

(** An instance built by [Cache] sits on one of the two adapters. *)
Lemma Cache_storage storageType ttl quiet s c :
  (Cache storageType ttl quiet s).1 = inr c ->
  storage c = siteStorage \/ storage c = scriptStorage.
Proof.
  unfold Cache, chooseStorage.
  destruct (strict_eq_string storageType "local");
    [|destruct (strict_eq_string storageType "script")];
    simpl; intros [= <-]; auto.
Qed.

Lemma ToString_VStr t : ToString (VStr t) = t.
Proof. unfold ToString. simpl. apply string_of_list_ascii_of_string. Qed.

(** Reading a key back after a write of a string. *)
Lemma get_set (st : Storage) key t s :
  st = siteStorage \/ st = scriptStorage ->
  get st key (set st key (VStr t) s) = VStr t.
Proof.
  intros [-> | ->]; simpl.
  - now rewrite lookup_insert_eq, ToString_VStr.
  - now rewrite lookup_insert_eq.
Qed.

Lemma clock_set (st : Storage) key v s :
  st = siteStorage \/ st = scriptStorage -> clock (set st key v s) = clock s.
Proof. now intros [-> | ->]. Qed.

(** A raw entry that parses to an item with a numeric [stored] is not
    falsy. *)
Lemma parsed_entry_truthy raw item T :
  JSON.parse raw = Some item -> member item "stored" = inr (VNum (Num T)) ->
  ToBoolean raw = true.
Proof.
  destruct raw as [| |[]|[|z]|t|l|l]; try reflexivity;
    try (intros [= <-]; discriminate); try discriminate.
  - destruct z; try reflexivity. intros [= <-]; discriminate.
  - destruct t; [discriminate|reflexivity].
Qed.

Lemma read_item_numeric c raw now item T t :
  TTL c = Num t ->
  JSON.parse raw = Some item -> member item "stored" = inr (VNum (Num T)) ->
  read_item c raw now =
  if t <? now - T then Stale
  else match member item "value" with
       | inr v => Fresh v
       | inl e => Failed e
       end.
Proof.
  intros Ht Hp Hs. unfold read_item.
  rewrite (parsed_entry_truthy _ _ _ Hp Hs), Hp, Hs, Ht. simpl.
  now destruct (t <? now - T).
Qed.

(** Every way a call [cache c key f s] in the goal can go: the lookup,
    then what the producer does, then the guard on its value. *)
Ltac cache_cases f s :=
  unfold cache; destruct (read_item _ _ _);
  [ | destruct (f s) as [[?v|?e|[?v|?e|]] ?s']; unfold write_back;
      try match goal with
          | |- context [neither_undefined_nor_null ?v] =>
              destruct (neither_undefined_nor_null v) eqn:?
          end
    | ].

(** A stale lookup invokes the producer, whatever it does. *)
Lemma cache_stale_invoked c key f s :
  read_item c (get (storage c) (NAMESPACE +:+ key) s) (clock s) = Stale ->
  invoked (cache c key f s) = true.
Proof. intros H. revert H. cache_cases f s; now intros. Qed.

Lemma cache_not_invoked_final c key f s :
  invoked (cache c key f s) = false -> final (cache c key f s) = s.
Proof. cache_cases f s; now intros. Qed.

(** The promise that [cache] returns is never rejected. *)
Lemma cache_never_rejects c key f s e : settled (cache c key f s) <> Rejected e.
Proof. cache_cases f s; discriminate. Qed.

Lemma cache_fresh c key f s v :
  read_item c (get (storage c) (NAMESPACE +:+ key) s) (clock s) = Fresh v ->
  cache c key f s =
  {| settled := Resolved v; invoked := false; logged := []; lost := None; final := s |}.
Proof. intros H. unfold cache. now rewrite H. Qed.

End GMLibFacts.

Module CacheFacts.
Import JS GMLib GMLibFacts.

(** The call, once the lookup is stale and the producer has yielded
    [v], directly or through its promise. *)
Lemma cache_miss_yields c key f s s' v :
  invoked (cache c key f s) = true ->
  f s = (Returns v, s') \/ f s = (ReturnsPromise (Fulfils v), s') ->
  cache c key f s = write_back c key v (debug [Text (miss_message key); Fn] s) s'.
Proof.
  unfold cache. destruct (read_item _ _ _); try discriminate.
  now intros _ [-> | ->].
Qed.

(** With a falsy raw entry the lookup is stale. *)
Lemma read_item_falsy c raw now : ToBoolean raw = false -> read_item c raw now = Stale.
Proof. intros H. unfold read_item. now rewrite H. Qed.

End CacheFacts.

Module ClearFacts.
Import JS GMLib.

(** [k.startsWith(p)], as a proposition. *)
Lemma prefix_starts_with p k : String.prefix p k = true <-> exists rest, k = p +:+ rest.
Proof.
  revert k. induction p as [|a p IH]; intros k; simpl.
  - split; [intros _; now exists k|now destruct k].
  - destruct k as [|b k]; [split; [discriminate|intros [? [=]]]|].
    simpl. destruct (Ascii.ascii_dec a b) as [->|Hne].
    + split.
      * intros [rest ->]%IH. now exists rest.
      * intros [rest [= ->]]. apply IH. now exists rest.
    + split; [discriminate|]. intros [rest [= ? _]]. congruence.
Qed.

(** Deleting a list of keys from the page storage, one after the
    other. *)
Lemma foldl_delete_site ks s :
  let s' := foldl (fun s k => delete siteStorage k s) s ks in
  (forall k, localStorage s' !! k = if decide (k ∈ ks) then None else localStorage s !! k)
  /\ GM_values s' = GM_values s /\ clock s' = clock s
  /\ debug_silenced s' = debug_silenced s.
Proof.
  cbv zeta. revert s. induction ks as [|k0 ks IH]; intros s.
  - repeat split.
  - cbn [foldl]. destruct (IH (delete siteStorage k0 s)) as (Hl & Hg & Hc & Hd).
    repeat split; [|now rewrite Hg|now rewrite Hc|now rewrite Hd].
    intros k. rewrite Hl. cbn [delete siteStorage localStorage with_localStorage].
    destruct (decide (k = k0)) as [->|Hne].
    + rewrite lookup_delete_eq. rewrite (decide_True (P := k0 ∈ k0 :: ks)) by left.
      now case_decide.
    + rewrite lookup_delete_ne by congruence.
      destruct (decide (k ∈ ks)) as [Hin|Hin].
      * rewrite decide_True; [reflexivity|now right].
      * rewrite decide_False; [reflexivity|].
        intros [?|?]%elem_of_cons; contradiction.
Qed.

Lemma foldl_delete_script ks s :
  let s' := foldl (fun s k => delete scriptStorage k s) s ks in
  (forall k, GM_values s' !! k = if decide (k ∈ ks) then None else GM_values s !! k)
  /\ localStorage s' = localStorage s /\ clock s' = clock s
  /\ debug_silenced s' = debug_silenced s.
Proof.
  cbv zeta. revert s. induction ks as [|k0 ks IH]; intros s.
  - repeat split.
  - cbn [foldl]. destruct (IH (delete scriptStorage k0 s)) as (Hl & Hg & Hc & Hd).
    repeat split; [|now rewrite Hg|now rewrite Hc|now rewrite Hd].
    intros k. rewrite Hl. cbn [delete scriptStorage GM_values with_GM_values].
    destruct (decide (k = k0)) as [->|Hne].
    + rewrite lookup_delete_eq. rewrite (decide_True (P := k0 ∈ k0 :: ks)) by left.
      now case_decide.
    + rewrite lookup_delete_ne by congruence.
      destruct (decide (k ∈ ks)) as [Hin|Hin].
      * rewrite decide_True; [reflexivity|now right].
      * rewrite decide_False; [reflexivity|].
        intros [?|?]%elem_of_cons; contradiction.
Qed.

(** Membership in the filtered key list of a map. *)
Lemma elem_of_filtered_keys {V} (m : gmap string V) (P : string -> bool) k :
  k ∈ List.filter P (map_to_list m).*1 <-> P k = true /\ is_Some (m !! k).
Proof.
  rewrite list_elem_of_In, filter_In, <- list_elem_of_In.
  rewrite list_elem_of_fmap. split.
  - intros [[[k' v] [-> Hin]] HP]. split; [exact HP|].
    apply elem_of_map_to_list in Hin. eauto.
  - intros [HP [v Hv]]. split; [|exact HP].
    exists (k, v). split; [reflexivity|]. now apply elem_of_map_to_list.
Qed.

Lemma lookup_after_filtered_delete {V} (m m' : gmap string V) (P : string -> bool) :
  (forall k, m' !! k = if decide (k ∈ List.filter P (map_to_list m).*1)
                       then None else m !! k) ->
  forall k, m' !! k = if P k then None else m !! k.
Proof.
  intros H k. rewrite H. case_decide as Hin.
  - apply elem_of_filtered_keys in Hin as [-> _]. reflexivity.
  - destruct (P k) eqn:HP; [|reflexivity].
    destruct (m !! k) eqn:E; [|reflexivity].
    exfalso. apply Hin, elem_of_filtered_keys. eauto.
Qed.

End ClearFacts.

Module RoundTripFacts.
Import JS GMLib GMLibFacts CacheFacts.

Lemma stringify_entry_is_string T v :
  exists text, JSON.stringify (entry T v) = VStr text.
Proof.
  unfold JSON.stringify, entry. rewrite JSONFacts.serialize_object. eauto.
Qed.

(** A key that holds the text written for [v] at time [T]: any call
    within the TTL is a hit on [v]. *)
Lemma served_after_write c k g v t T s2 :
  TTL c = Num t -> JSON.serializable v = true ->
  get (storage c) (NAMESPACE +:+ k) s2 = JSON.stringify (entry T v) ->
  clock s2 - T <= t ->
  cache c k g s2 =
  {| settled := Resolved v; invoked := false; logged := []; lost := None; final := s2 |}.
Proof.
  intros Ht Hv Hget Hage.
  assert (Hp : JSON.parse (get (storage c) (NAMESPACE +:+ k) s2) = Some (entry T v)).
  { rewrite Hget. apply JSONFacts.parse_stringify. simpl. now rewrite Hv. }
  apply cache_fresh.
  rewrite (read_item_numeric c _ (clock s2) _ T t Ht Hp eq_refl).
  destruct (Z.ltb_spec t (clock s2 - T)); [lia|reflexivity].
Qed.

(** What a miss on a storable value leaves behind. *)
Lemma written_entry c k f s s' v :
  storage c = siteStorage \/ storage c = scriptStorage ->
  invoked (cache c k f s) = true ->
  f s = (Returns v, s') \/ f s = (ReturnsPromise (Fulfils v), s') ->
  neither_undefined_nor_null v = true ->
  settled (cache c k f s) = Resolved v /\
  clock (final (cache c k f s)) = clock s' /\
  get (storage c) (NAMESPACE +:+ k) (final (cache c k f s))
  = JSON.stringify (entry (clock s') v).
Proof.
  intros Hst Hi Hf Hn. rewrite (cache_miss_yields _ _ _ _ _ _ Hi Hf).
  unfold write_back. rewrite Hn. cbn [settled final].
  destruct (stringify_entry_is_string (clock s') v) as [text ->].
  split; [reflexivity|]. split; [now apply clock_set|now apply get_set].
Qed.

Lemma serializable_defined v :
  JSON.serializable v = true -> v <> VNull -> neither_undefined_nor_null v = true.
Proof. destruct v; simpl; congruence. Qed.

End RoundTripFacts.

(** ** Further facts about the library *)

Module RequestFacts.
Import JS GMLib.

Lemma get_success url r s :
  200 <= status r < 300 ->
  GMXHR.get url (Some r) s
  = (Resolved (VStr (responseText r)), debug [Text "GMXHR GET"; Text url] s).
Proof.
  intros H. unfold GMXHR.get.
  assert (E : (200 <=? status r) && (status r <? 300) = true).
  { apply andb_true_iff. split; [apply Z.leb_le|apply Z.ltb_lt]; lia. }
  now rewrite E.
Qed.

Lemma get_failure url r s :
  status r < 200 \/ 300 <= status r ->
  GMXHR.get url (Some r) s
  = (Rejected (Thrown (VNum (Num (status r)))),
     debug [Text "GMXHR GET"; Text url] s
     ++ error [Text "Failed to get: "; Text url;
               Text (" (" +:+ ToString (VNum (Num (status r))) +:+ ") ");
               Text (statusText r)]).
Proof.
  intros H. unfold GMXHR.get.
  assert (E : (200 <=? status r) && (status r <? 300) = false).
  { apply andb_false_iff.
    destruct H; [left; apply Z.leb_gt|right; apply Z.ltb_ge]; lia. }
  now rewrite E.
Qed.

End RequestFacts.

Module StorageFacts.
Import JS GMLib GMLibFacts ClearFacts.

Lemma state_eq s1 s2 :
  localStorage s1 = localStorage s2 -> GM_values s1 = GM_values s2 ->
  clock s1 = clock s2 -> debug_silenced s1 = debug_silenced s2 -> s1 = s2.
Proof. destruct s1, s2; simpl; congruence. Qed.

Lemma append_inj a k k' : a +:+ k = a +:+ k' -> k = k'.
Proof. induction a as [|c a IH]; simpl; [auto|]. intros [= H]. auto. Qed.

Lemma prefix_append a p k : String.prefix (a +:+ p) (a +:+ k) = String.prefix p k.
Proof.
  induction a as [|c a IH]; simpl; [reflexivity|].
  destruct (Ascii.ascii_dec c c); [exact IH|congruence].
Qed.

(** Membership in the key list of a map. *)
Lemma elem_of_keys {V} (m : gmap string V) k :
  k ∈ (map_to_list m).*1 <-> is_Some (m !! k).
Proof.
  rewrite list_elem_of_fmap. split.
  - intros [[k' v] [-> Hin]]. apply elem_of_map_to_list in Hin. eauto.
  - intros [v Hv]. exists (k, v). split; [reflexivity|]. now apply elem_of_map_to_list.
Qed.

(** What a call decides before the producer runs depends on the raw
    entry and the clock only. *)
Lemma cache_lookup_congruence c k f g s1 s2 :
  get (storage c) (NAMESPACE +:+ k) s1 = get (storage c) (NAMESPACE +:+ k) s2 ->
  clock s1 = clock s2 ->
  invoked (cache c k f s1) = invoked (cache c k g s2) /\
  (invoked (cache c k g s2) = false ->
   settled (cache c k f s1) = settled (cache c k g s2)).
Proof.
  intros Hg Hc. unfold cache. rewrite Hg, Hc.
  destruct (read_item _ _ _); [now split| |now split].
  destruct (f s1) as [[?|?|[?|?|]] ?], (g s2) as [[?|?|[?|?|]] ?];
    unfold write_back;
    repeat match goal with
           | |- context [neither_undefined_nor_null ?v] =>
               destruct (neither_undefined_nor_null v)
           end; split; try reflexivity; discriminate.
Qed.

(** The state [clear] leaves, read through the instance's adapter. *)
Lemma clear_site ttl p s :
  let keyPrefix := NAMESPACE +:+ ToString (or_else p (VStr "")) in
  let s' := (clear {| TTL := ttl; storage := siteStorage |} p s).2 in
  (forall k, localStorage s' !! k
             = if String.prefix keyPrefix k then None else localStorage s !! k) /\
  GM_values s' = GM_values s /\ clock s' = clock s /\
  debug_silenced s' = debug_silenced s.
Proof.
  cbv zeta. unfold clear. cbn [snd storage].
  destruct (foldl_delete_site
              (List.filter (fun k => String.prefix
                                       (NAMESPACE +:+ ToString (or_else p (VStr ""))) k)
                 (keys siteStorage s)) s) as (Hl & Hg & Hc & Hd).
  repeat split; try assumption.
  exact (lookup_after_filtered_delete _ _ _ Hl).
Qed.

Lemma clear_script ttl p s :
  let keyPrefix := NAMESPACE +:+ ToString (or_else p (VStr "")) in
  let s' := (clear {| TTL := ttl; storage := scriptStorage |} p s).2 in
  (forall k, GM_values s' !! k
             = if String.prefix keyPrefix k then None else GM_values s !! k) /\
  localStorage s' = localStorage s /\ clock s' = clock s /\
  debug_silenced s' = debug_silenced s.
Proof.
  cbv zeta. unfold clear. cbn [snd storage].
  destruct (foldl_delete_script
              (List.filter (fun k => String.prefix
                                       (NAMESPACE +:+ ToString (or_else p (VStr ""))) k)
                 (keys scriptStorage s)) s) as (Hl & Hg & Hc & Hd).
  repeat split; try assumption.
  exact (lookup_after_filtered_delete _ _ _ Hl).
Qed.

(** An instance is determined by its two fields. *)
Lemma instance_eta c : c = {| TTL := TTL c; storage := storage c |}.
Proof. now destruct c. Qed.

(** [clear], read through the adapter of an instance built by [Cache]. *)
Lemma clear_get c p s key :
  storage c = siteStorage \/ storage c = scriptStorage ->
  get (storage c) key (clear c p s).2
  = (if String.prefix (NAMESPACE +:+ ToString (or_else p (VStr ""))) key
     then VUndefined else get (storage c) key s) /\
  clock (clear c p s).2 = clock s /\
  debug_silenced (clear c p s).2 = debug_silenced s.
Proof.
  intros Hst. rewrite (instance_eta c).
  destruct Hst as [-> | ->]; cbn [storage].
  - destruct (clear_site (TTL c) p s) as (Hl & _ & Hc & Hd).
    repeat split; try assumption. cbn [get siteStorage]. rewrite Hl.
    now destruct (String.prefix _ key).
  - destruct (clear_script (TTL c) p s) as (Hl & _ & Hc & Hd).
    repeat split; try assumption. cbn [get scriptStorage]. rewrite Hl.
    now destruct (String.prefix _ key).
Qed.

(** The key prefix of [clear] for an omitted or a string prefix. *)
Lemma clear_prefix_of_string (p : option string) :
  NAMESPACE +:+ ToString (or_else (match p with Some t => VStr t | None => VUndefined end)
                            (VStr ""))
  = NAMESPACE +:+ default "" p.
Proof.
  unfold or_else.
  destruct p as [[|a t]|]; cbn [ToBoolean String.eqb negb default];
    now rewrite ToString_VStr.
Qed.

End StorageFacts.

Module InstanceFacts.
Import JS GMLib GMLibFacts CacheFacts ClearFacts StorageFacts.

Lemma append_assoc (a b c : string) : (a +:+ b) +:+ c = a +:+ (b +:+ c).
Proof.
  induction a as [|x a IH]; [reflexivity|].
  change (String x ((a +:+ b) +:+ c) = String x (a +:+ (b +:+ c))).
  now rewrite IH.
Qed.

(** A key that is cleared under a prefix begins with the namespace. *)
Lemma prefix_namespace x key :
  String.prefix (NAMESPACE +:+ x) key = true -> String.prefix NAMESPACE key = true.
Proof.
  intros [rest ->]%prefix_starts_with. apply prefix_starts_with.
  exists (x +:+ rest). apply append_assoc.
Qed.

(** Two instances built for the same storage type sit on the same
    adapter. *)
Lemma Cache_same_storage storageType ttl1 quiet1 s1 c1 ttl2 quiet2 s2 c2 :
  (Cache storageType ttl1 quiet1 s1).1 = inr c1 ->
  (Cache storageType ttl2 quiet2 s2).1 = inr c2 ->
  storage c1 = storage c2.
Proof.
  unfold Cache. destruct (chooseStorage storageType); simpl; [discriminate|].
  now intros [= <-] [= <-].
Qed.

(** The TTL that [Cache] computes. *)
Lemma Cache_TTL storageType ttl quiet s c :
  (Cache storageType ttl quiet s).1 = inr c ->
  TTL c = mul (ToNumber (or_else ttl (VNum (Num (3600 * 24 * 2))))) (Num 1000).
Proof.
  unfold Cache. destruct (chooseStorage storageType); simpl; [discriminate|].
  now intros [= <-].
Qed.

(** A call on a falsy raw entry invokes the producer. *)
Lemma cache_absent_invoked c k f s :
  get (storage c) (NAMESPACE +:+ k) s = VUndefined -> invoked (cache c k f s) = true.
Proof.
  intros H. apply cache_stale_invoked. apply read_item_falsy. now rewrite H.
Qed.

End InstanceFacts.

Module EntryFacts.
Import JS GMLib GMLibFacts.

(** [JSON.parse] never returns [undefined]. *)
Lemma parse_value_defined fuel s v r :
  JSON.parse_value fuel s = Some (v, r) -> v <> VUndefined.
Proof.
  destruct fuel as [|n]; [discriminate|].
  cbn [JSON.parse_value]. unfold JSON.parse_number.
  repeat match goal with
         | |- context [match ?x with _ => _ end] => destruct x
         | |- context [if ?b then _ else _] => destruct b
         end;
    try discriminate; intros [= <- _]; discriminate.
Qed.

Lemma parse_defined raw item : JSON.parse raw = Some item -> item <> VUndefined.
Proof.
  unfold JSON.parse.
  destruct (JSON.parse_value _ _) as [[v r]|] eqn:E; [|discriminate].
  destruct (JSON.skip_ws r); [|discriminate].
  intros [= <-]. eapply parse_value_defined, E.
Qed.

(** Reading [stored] and [value] off a parsed item that is not [null]
    and, when it is an object, has no [stored] key. *)
Lemma members_without_stored raw item :
  JSON.parse raw = Some item -> item <> VNull ->
  (forall props, item = VObj props -> own_property "stored" props = None) ->
  member item "stored" = inr VUndefined /\ exists v, member item "value" = inr v.
Proof.
  intros Hp Hn Ho. apply parse_defined in Hp.
  destruct item; try contradiction; simpl; eauto.
  rewrite (Ho _ eq_refl). eauto.
Qed.

End EntryFacts.

(** ** The properties of the specification *)

Import JS GMLib GMLibFacts CacheFacts ClearFacts RoundTripFacts Examples.
Import EntryFacts.

(** C1.  A key whose raw entry deserializes to an item stored at time
    [T], read at time [clock s] by an instance whose TTL is [t]
    milliseconds: when [clock s - T <= t] the call resolves with the
    stored value and the producer is not invoked; when
    [clock s - T > t] the producer is invoked. *)
Theorem fresh_entry_served_expired_entry_recomputed
    (c : instance) (k : string) (f : producer) (s : state)
    (item v : value) (T t : Z) :
  TTL c = Num t ->
  JSON.parse (get (storage c) (NAMESPACE +:+ k) s) = Some item ->
  member item "stored" = inr (VNum (Num T)) ->
  member item "value" = inr v ->
  (clock s - T <= t ->
     settled (cache c k f s) = Resolved v /\ invoked (cache c k f s) = false) /\
  (clock s - T > t -> invoked (cache c k f s) = true).
Proof.
  intros Ht Hp Hs Hv.
  pose proof (read_item_numeric c _ (clock s) item T t Ht Hp Hs) as Hr.
  rewrite Hv in Hr. split; intros Hage.
  - destruct (Z.ltb_spec t (clock s - T)); [lia|].
    now rewrite (cache_fresh _ _ _ _ _ Hr).
  - destruct (Z.ltb_spec t (clock s - T)); [|lia].
    now apply cache_stale_invoked.
Qed.

Lemma fresh_entry_served_expired_entry_recomputed_witness :
  (settled (cache two_days "rating" (returning (VStr "new"))
              (holding "gmlib|rating" rating_text (later 500 s0)))
   = Resolved (VStr "8.9") /\
   invoked (cache two_days "rating" (returning (VStr "new"))
              (holding "gmlib|rating" rating_text (later 500 s0)))
   = false) /\
  invoked (cache two_days "rating" (returning (VStr "new"))
             (holding "gmlib|rating" rating_text (later 172800001 s0))) = true.
Proof.
  split.
  - apply (fresh_entry_served_expired_entry_recomputed two_days "rating" _
             (holding "gmlib|rating" rating_text (later 500 s0))
             (entry 1000 (VStr "8.9")) (VStr "8.9") 1000 172800000);
      [reflexivity | vm_compute; reflexivity | reflexivity | reflexivity
      | vm_compute; discriminate].
  - apply (fresh_entry_served_expired_entry_recomputed two_days "rating" _
             (holding "gmlib|rating" rating_text (later 172800001 s0))
             (entry 1000 (VStr "8.9")) (VStr "8.9") 1000 172800000);
      [reflexivity | vm_compute; reflexivity | reflexivity | reflexivity
      | vm_compute; reflexivity].
Defined.

(** C2, as it stands, fails: a producer that returns [null] is invoked
    by each of two calls in immediate succession. *)
Lemma null_producer_is_invoked_twice :
  invoked (cache two_days "k" (returning VNull) s0) = true /\
  invoked (cache two_days "k" (returning VNull)
             (final (cache two_days "k" (returning VNull) s0))) = true.
Proof. vm_compute. split; reflexivity. Qed.

(** C2, amended.  On an instance built by [Cache] whose TTL is a number
    that is not negative: when the first of two calls [cache(k, f)] in
    immediate succession resolves with [v], and [v], if it came from
    the producer, is JSON-serializable and not [null], then the second
    call resolves with [v] without invoking [f]; so [f] is invoked at
    most once in total. *)
Theorem second_call_is_a_hit
    (storageType ttl quiet : value) (s_built : state)
    (c : instance) (k : string) (f : producer) (s : state) (v : value) (t : Z) :
  (Cache storageType ttl quiet s_built).1 = inr c ->
  TTL c = Num t -> 0 <= t ->
  settled (cache c k f s) = Resolved v ->
  (invoked (cache c k f s) = true -> JSON.serializable v = true /\ v <> VNull) ->
  settled (cache c k f (final (cache c k f s))) = Resolved v /\
  invoked (cache c k f (final (cache c k f s))) = false /\
  (Nat.b2n (invoked (cache c k f s))
   + Nat.b2n (invoked (cache c k f (final (cache c k f s)))) <= 1)%nat.
Proof.
  intros Hc Ht Hpos Hres Hv.
  apply Cache_storage in Hc.
  assert (H2 : settled (cache c k f (final (cache c k f s))) = Resolved v /\
               invoked (cache c k f (final (cache c k f s))) = false).
  { destruct (invoked (cache c k f s)) eqn:Hi.
    - destruct (Hv eq_refl) as [Hser Hnn].
      assert (Hf : exists s', f s = (Returns v, s') \/ f s = (ReturnsPromise (Fulfils v), s')).
      { revert Hi Hres. cache_cases f s; try discriminate;
          intros _ [= ->]; eauto. }
      destruct Hf as [s' Hf].
      destruct (written_entry c k f s s' v Hc Hi Hf (serializable_defined v Hser Hnn))
        as (_ & Hclock & Hget).
      rewrite (served_after_write c k f v t (clock s') _ Ht Hser Hget) by lia.
      now split.
    - rewrite (cache_not_invoked_final _ _ _ _ Hi). now split. }
  destruct H2 as [-> ->]. repeat split.
  destruct (invoked (cache c k f s)); simpl; lia.
Qed.

Lemma second_call_is_a_hit_witness :
  settled (cache two_days "k" (returning (VStr "8.9"))
             (final (cache two_days "k" (returning (VStr "8.9")) s0)))
  = Resolved (VStr "8.9") /\
  invoked (cache two_days "k" (returning (VStr "8.9"))
             (final (cache two_days "k" (returning (VStr "8.9")) s0))) = false /\
  (Nat.b2n (invoked (cache two_days "k" (returning (VStr "8.9")) s0))
   + Nat.b2n (invoked (cache two_days "k" (returning (VStr "8.9"))
                         (final (cache two_days "k" (returning (VStr "8.9")) s0)))) <= 1)%nat.
Proof.
  apply (second_call_is_a_hit (VStr "local") VUndefined VUndefined s0
           two_days "k" (returning (VStr "8.9")) s0 (VStr "8.9") 172800000);
    [reflexivity | reflexivity | vm_compute; discriminate | reflexivity
    | intros _; split; [reflexivity | discriminate]].
Defined.

(** C3: what the code does with a failing producer.  The promise
    returned by [cache] never rejects.  On a miss whose producer throws
    [e], or returns a promise that rejects with [e], the returned
    promise stays pending: [e] is lost with the executor's own promise.
    Nothing is written: the state is the one the producer left. *)
Theorem failing_producer_leaves_promise_pending
    (c : instance) (k : string) (f : producer) (s s' : state) (e : JS.error) :
  invoked (cache c k f s) = true ->
  f s = (Throws e, s') \/ f s = (ReturnsPromise (Rejects e), s') ->
  settled (cache c k f s) = Pending /\
  lost (cache c k f s) = Some e /\
  final (cache c k f s) = s' /\
  (forall c' k' f' s1 e', settled (cache c' k' f' s1) <> Rejected e').
Proof.
  intros Hi Hf. split; [|split; [|split]].
  1-3: revert Hi; unfold cache; destruct (read_item _ _ _); try discriminate;
       now destruct Hf as [-> | ->].
  intros c' k' f' s1 e'. apply cache_never_rejects.
Qed.

Lemma failing_producer_leaves_promise_pending_witness :
  (settled (cache two_days "k" (throwing (Thrown (VStr "boom"))) s0) = Pending /\
   lost (cache two_days "k" (throwing (Thrown (VStr "boom"))) s0)
   = Some (Thrown (VStr "boom")) /\
   final (cache two_days "k" (throwing (Thrown (VStr "boom"))) s0) = s0) /\
  (settled (cache two_days "k" (rejecting (Thrown (VStr "boom"))) s0) = Pending /\
   lost (cache two_days "k" (rejecting (Thrown (VStr "boom"))) s0)
   = Some (Thrown (VStr "boom")) /\
   final (cache two_days "k" (rejecting (Thrown (VStr "boom"))) s0) = s0).
Proof.
  split.
  - pose proof (failing_producer_leaves_promise_pending two_days "k"
                  (throwing (Thrown (VStr "boom"))) s0 s0 (Thrown (VStr "boom"))
                  eq_refl (or_introl eq_refl)) as (H1 & H2 & H3 & _).
    exact (conj H1 (conj H2 H3)).
  - pose proof (failing_producer_leaves_promise_pending two_days "k"
                  (rejecting (Thrown (VStr "boom"))) s0 s0 (Thrown (VStr "boom"))
                  eq_refl (or_intror eq_refl)) as (H1 & H2 & H3 & _).
    exact (conj H1 (conj H2 H3)).
Defined.

(** C4, as it stands, fails: a producer result [NaN] is neither [null]
    nor [undefined], so it is written, and its entry holds the value
    [null], which a later call then serves. *)
Lemma NaN_result_is_persisted_as_null :
  settled (cache two_days "k" (returning (VNum NaN)) s0) = Resolved (VNum NaN) /\
  JSON.parse (get siteStorage "gmlib|k" (final (cache two_days "k" (returning (VNum NaN)) s0)))
  = Some (entry 1000 VNull) /\
  settled (cache two_days "k" (returning (VNum (Num 1)))
             (final (cache two_days "k" (returning (VNum NaN)) s0))) = Resolved VNull.
Proof. vm_compute. repeat split. Qed.

(** C4, amended.  On a miss whose producer yields [v]: when [v] is
    [null] or [undefined] nothing is written, the refusal is logged as
    a warning after the miss message, and the call resolves with [v];
    otherwise the call writes the text of [{stored: now, value: v}]
    under the namespaced key, and resolves with [v].  (The value inside
    that text is the JSON image of [v], which may be [null].) *)
Theorem null_result_is_returned_unstored
    (c : instance) (k : string) (f : producer) (s s' : state) (v : value) :
  invoked (cache c k f s) = true ->
  f s = (Returns v, s') \/ f s = (ReturnsPromise (Fulfils v), s') ->
  (v = VNull \/ v = VUndefined ->
   final (cache c k f s) = s' /\
   settled (cache c k f s) = Resolved v /\
   logged (cache c k f s)
   = debug [Text (miss_message k); Fn] s ++ [(Warn, [Text "[GMLib]"; Text refusal_message; Fn])]) /\
  (v <> VNull -> v <> VUndefined ->
   final (cache c k f s)
   = set (storage c) (NAMESPACE +:+ k) (JSON.stringify (entry (clock s') v)) s' /\
   settled (cache c k f s) = Resolved v).
Proof.
  intros Hi Hf. rewrite (cache_miss_yields _ _ _ _ _ _ Hi Hf). unfold write_back.
  split.
  - now intros [-> | ->].
  - intros Hn Hu. destruct v; try contradiction; now split.
Qed.

Lemma null_result_is_returned_unstored_witness :
  (final (cache two_days "k" (returning VNull) s0) = s0 /\
   settled (cache two_days "k" (returning VNull) s0) = Resolved VNull /\
   logged (cache two_days "k" (returning VNull) s0)
   = debug [Text (miss_message "k"); Fn] s0
     ++ [(Warn, [Text "[GMLib]"; Text refusal_message; Fn])]) /\
  (final (cache two_days "k" (returning (VStr "8.9")) s0)
   = set siteStorage "gmlib|k" (JSON.stringify (entry 1000 (VStr "8.9"))) s0 /\
   settled (cache two_days "k" (returning (VStr "8.9")) s0) = Resolved (VStr "8.9")).
Proof.
  split.
  - apply (proj1 (null_result_is_returned_unstored two_days "k" (returning VNull) s0 s0 VNull
                    eq_refl (or_introl eq_refl))).
    left; reflexivity.
  - apply (proj2 (null_result_is_returned_unstored two_days "k" (returning (VStr "8.9"))
                    s0 s0 (VStr "8.9") eq_refl (or_introl eq_refl)));
      discriminate.
Defined.

(** C5, as it stands, fails: a raw entry that is JSON but not an
    entry, the number [7] or an object with a [value] and no [stored],
    is served as a hit, with [undefined] and with that [value]; the
    producer is not invoked. *)
Lemma malformed_entry_is_not_a_miss :
  (settled (cache two_days "k" (returning (VStr "fresh")) (holding "gmlib|k" "7" s0))
   = Resolved VUndefined /\
   invoked (cache two_days "k" (returning (VStr "fresh")) (holding "gmlib|k" "7" s0))
   = false) /\
  (settled (cache two_days "k" (returning (VStr "fresh"))
              (holding "gmlib|k" unstamped_text s0))
   = Resolved (VStr "old") /\
   invoked (cache two_days "k" (returning (VStr "fresh"))
              (holding "gmlib|k" unstamped_text s0))
   = false).
Proof. vm_compute. repeat split. Qed.

(** C5, amended.  A raw entry that is falsy (absent, or the empty
    string) is a miss: the producer is invoked and the call resolves
    with what it yields.  A truthy raw entry that parses to an item
    other than [null] with no [stored] member (a number, a string, a
    boolean, an array, an object without that key) is not a miss:
    whatever the clock and the TTL, the call resolves with the item's
    [value] member, [undefined] when it has none, and the producer is
    not invoked. *)
Theorem malformed_entry_empty_or_without_stored
    (c : instance) (k : string) (f : producer) (s : state) :
  (ToBoolean (get (storage c) (NAMESPACE +:+ k) s) = false ->
   invoked (cache c k f s) = true /\
   forall v s', f s = (Returns v, s') \/ f s = (ReturnsPromise (Fulfils v), s') ->
                settled (cache c k f s) = Resolved v) /\
  (forall item,
     ToBoolean (get (storage c) (NAMESPACE +:+ k) s) = true ->
     JSON.parse (get (storage c) (NAMESPACE +:+ k) s) = Some item ->
     item <> VNull ->
     (forall props, item = VObj props -> own_property "stored" props = None) ->
     exists v,
       member item "value" = inr v /\
       (forall props, item = VObj props -> v = default VUndefined (own_property "value" props)) /\
       ((forall props, item <> VObj props) -> v = VUndefined) /\
       settled (cache c k f s) = Resolved v /\ invoked (cache c k f s) = false).
Proof.
  split.
  - intros Hf.
    pose proof (cache_stale_invoked c k f s (read_item_falsy _ _ _ Hf)) as Hi.
    split; [exact Hi|]. intros v s' Hv.
    rewrite (cache_miss_yields _ _ _ _ _ _ Hi Hv). unfold write_back.
    now destruct (neither_undefined_nor_null v).
  - intros item Ht Hp Hn Ho.
    destruct (members_without_stored _ _ Hp Hn Ho) as (Hs & v & Hv).
    exists v. split; [exact Hv|].
    assert (Hr : read_item c (get (storage c) (NAMESPACE +:+ k) s) (clock s) = Fresh v).
    { unfold read_item. rewrite Ht, Hp, Hs, Hv. simpl. now destruct (TTL c). }
    rewrite (cache_fresh _ _ _ _ _ Hr). split; [|split; [|split; reflexivity]].
    + intros props ->. simpl in Hv. congruence.
    + intros Hno. destruct item; simpl in Hv; congruence.
Qed.

Lemma malformed_entry_empty_or_without_stored_witness :
  invoked (cache two_days "k" (returning (VStr "fresh")) (holding "gmlib|k" "" s0)) = true /\
  exists v,
    member (VObj [("value", VStr "old")]) "value" = inr v /\
    (forall props, VObj [("value", VStr "old")] = VObj props ->
                   v = default VUndefined (own_property "value" props)) /\
    ((forall props, VObj [("value", VStr "old")] <> VObj props) -> v = VUndefined) /\
    settled (cache two_days "k" (returning (VStr "fresh"))
               (holding "gmlib|k" unstamped_text s0)) = Resolved v /\
    invoked (cache two_days "k" (returning (VStr "fresh"))
               (holding "gmlib|k" unstamped_text s0)) = false.
Proof.
  split.
  - apply (proj1 (malformed_entry_empty_or_without_stored two_days "k"
                    (returning (VStr "fresh")) (holding "gmlib|k" "" s0))).
    reflexivity.
  - apply (proj2 (malformed_entry_empty_or_without_stored two_days "k"
                    (returning (VStr "fresh")) (holding "gmlib|k" unstamped_text s0))
             (VObj [("value", VStr "old")]));
      [reflexivity | vm_compute; reflexivity | discriminate
      | intros props [= <-]; reflexivity].
Defined.

(** C6.  For every prefix [p], omitted or a string, [clear(p)] deletes
    from the instance's backend every key that starts with
    ["gmlib|" + p] (an omitted prefix counting as the empty string),
    whatever the age of its entry, and leaves every other key with its
    value; the other backend, the clock and the binding of [debug] are
    untouched.  Stated for an instance on each adapter. *)
Theorem clear_deletes_exactly_the_prefixed_keys
    (ttl : number) (p : option string) (s : state) (k : string) :
  let prefix := match p with Some t => VStr t | None => VUndefined end in
  let keyPrefix := "gmlib|" +:+ default "" p in
  let starts := exists rest, k = keyPrefix +:+ rest in
  let s1 := (clear {| TTL := ttl; storage := siteStorage |} prefix s).2 in
  let s2 := (clear {| TTL := ttl; storage := scriptStorage |} prefix s).2 in
  ((starts -> localStorage s1 !! k = None) /\
   (~ starts -> localStorage s1 !! k = localStorage s !! k) /\
   GM_values s1 = GM_values s /\ clock s1 = clock s /\
   debug_silenced s1 = debug_silenced s) /\
  ((starts -> GM_values s2 !! k = None) /\
   (~ starts -> GM_values s2 !! k = GM_values s !! k) /\
   localStorage s2 = localStorage s /\ clock s2 = clock s /\
   debug_silenced s2 = debug_silenced s).
Proof.
  intros prefix keyPrefix starts s1 s2.
  assert (Hkp : NAMESPACE +:+ ToString (or_else prefix (VStr "")) = keyPrefix).
  { unfold keyPrefix, prefix, or_else, NAMESPACE.
    destruct p as [[|a t]|]; cbn [ToBoolean String.eqb negb default];
      now rewrite ToString_VStr. }
  assert (Hdec : (starts /\ String.prefix keyPrefix k = true) \/
                 (~ starts /\ String.prefix keyPrefix k = false)).
  { unfold starts. destruct (String.prefix keyPrefix k) eqn:E; [left|right]; split; auto.
    - now apply prefix_starts_with.
    - intros Hs. apply prefix_starts_with in Hs. congruence. }
  split.
  - destruct (foldl_delete_site
                (List.filter (fun k => String.prefix keyPrefix k) (keys siteStorage s)) s)
      as (Hl & Hg & Hc & Hd).
    pose proof (lookup_after_filtered_delete _ _ _ Hl k) as Hk. cbv beta in Hk.
    unfold s1, clear. cbn [snd storage]. rewrite Hkp.
    repeat split; try assumption; intros Hs; rewrite Hk;
      destruct Hdec as [[Hs' ->]|[Hs' ->]]; tauto.
  - destruct (foldl_delete_script
                (List.filter (fun k => String.prefix keyPrefix k) (keys scriptStorage s)) s)
      as (Hl & Hg & Hc & Hd).
    pose proof (lookup_after_filtered_delete _ _ _ Hl k) as Hk. cbv beta in Hk.
    unfold s2, clear. cbn [snd storage]. rewrite Hkp.
    repeat split; try assumption; intros Hs; rewrite Hk;
      destruct Hdec as [[Hs' ->]|[Hs' ->]]; tauto.
Qed.

Lemma clear_deletes_exactly_the_prefixed_keys_witness :
  localStorage
    (clear two_days (VStr "rat")
       (holding "gmlib|rating" rating_text (holding "other" "kept" s0))).2
  !! "gmlib|rating" = None /\
  localStorage
    (clear two_days (VStr "rat")
       (holding "gmlib|rating" rating_text (holding "other" "kept" s0))).2
  !! "other" = Some "kept".
Proof.
  split.
  - apply (clear_deletes_exactly_the_prefixed_keys (Num 172800000) (Some "rat")
             (holding "gmlib|rating" rating_text (holding "other" "kept" s0))
             "gmlib|rating").
    exists "ing". reflexivity.
  - etransitivity;
      [apply (clear_deletes_exactly_the_prefixed_keys (Num 172800000) (Some "rat")
                (holding "gmlib|rating" rating_text (holding "other" "kept" s0))
                "other")
      | reflexivity].
    intros [rest H]. discriminate H.
Defined.

(** C7, as it stands, fails for the JSON value [null]: returned on a
    miss it is not persisted, and a later call within the TTL resolves
    with whatever its own producer returns. *)
Lemma null_does_not_round_trip :
  settled (cache two_days "k" (returning VNull) s0) = Resolved VNull /\
  get siteStorage "gmlib|k" (final (cache two_days "k" (returning VNull) s0)) = VUndefined /\
  settled (cache two_days "k" (returning (VNum (Num 1)))
             (final (cache two_days "k" (returning VNull) s0)))
  = Resolved (VNum (Num 1)).
Proof. vm_compute. repeat split. Qed.

(** C7, amended.  On an instance built by [Cache] whose TTL is a
    number: a JSON-serializable value [v] other than [null], yielded by
    the producer on a miss for [k] at time [clock s'], is persisted as a
    raw entry that parses to [{stored: clock s', value: v}]; and while
    that raw entry is in place, every call [cache(k, g)] no later than
    the TTL after [clock s'] resolves with [v] itself, without invoking
    [g]. *)
Theorem stored_value_round_trips
    (storageType ttl quiet : value) (s_built : state)
    (c : instance) (k : string) (f g : producer) (s s' s2 : state) (v : value) (t : Z) :
  (Cache storageType ttl quiet s_built).1 = inr c ->
  TTL c = Num t ->
  invoked (cache c k f s) = true ->
  f s = (Returns v, s') \/ f s = (ReturnsPromise (Fulfils v), s') ->
  JSON.serializable v = true -> v <> VNull ->
  get (storage c) (NAMESPACE +:+ k) s2
  = get (storage c) (NAMESPACE +:+ k) (final (cache c k f s)) ->
  clock s2 - clock s' <= t ->
  JSON.parse (get (storage c) (NAMESPACE +:+ k) (final (cache c k f s)))
  = Some (entry (clock s') v) /\
  settled (cache c k g s2) = Resolved v /\
  invoked (cache c k g s2) = false.
Proof.
  intros Hc Ht Hi Hf Hser Hnn Hsame Hage.
  apply Cache_storage in Hc.
  destruct (written_entry c k f s s' v Hc Hi Hf (serializable_defined v Hser Hnn))
    as (_ & _ & Hget).
  split.
  - rewrite Hget. apply JSONFacts.parse_stringify. simpl. now rewrite Hser.
  - rewrite Hget in Hsame.
    rewrite (served_after_write c k g v t (clock s') s2 Ht Hser Hsame Hage).
    now split.
Qed.

Lemma stored_value_round_trips_witness :
  JSON.parse (get siteStorage "gmlib|rating"
                (final (cache two_days "rating" (returning (VStr "8.9")) s0)))
  = Some (entry 1000 (VStr "8.9")) /\
  settled (cache two_days "rating" (returning (VStr "other"))
             (later 1000 (final (cache two_days "rating" (returning (VStr "8.9")) s0))))
  = Resolved (VStr "8.9") /\
  invoked (cache two_days "rating" (returning (VStr "other"))
             (later 1000 (final (cache two_days "rating" (returning (VStr "8.9")) s0))))
  = false.
Proof.
  apply (stored_value_round_trips (VStr "local") VUndefined VUndefined s0
           two_days "rating" (returning (VStr "8.9")) (returning (VStr "other"))
           s0 s0 (later 1000 (final (cache two_days "rating" (returning (VStr "8.9")) s0)))
           (VStr "8.9") 172800000);
    [reflexivity | reflexivity | reflexivity | left; reflexivity | reflexivity
    | discriminate | reflexivity | vm_compute; discriminate].
Defined.

(** C8, as it stands, fails: the instance [two_days] was built without
    [quiet]; once another instance has been built with [quiet], the
    miss message of [two_days] and the request message of [GMXHR.get]
    are no longer logged. *)
Lemma quiet_instance_silences_the_others :
  Cache (VStr "local") VUndefined VUndefined s0 = (inr two_days, s0) /\
  logged (cache two_days "k" (returning (VStr "v")) s0)
  = [(Debug, [Text "[GMLib]"; Text (miss_message "k"); Fn])] /\
  (GMXHR.get "u" None s0).2 = [(Debug, [Text "[GMLib]"; Text "GMXHR GET"; Text "u"])] /\
  logged (cache two_days "k" (returning (VStr "v"))
            (Cache (VStr "script") VUndefined (VBool true) s0).2) = [] /\
  (GMXHR.get "u" None (Cache (VStr "script") VUndefined (VBool true) s0).2).2 = [].
Proof. vm_compute. repeat split. Qed.

(** C8, amended.  A call of [Cache] with a truthy [quiet] rebinds the
    [debug] function of the library, whether or not the call then
    throws.  In the state it leaves, no cache instance, no [clear] and
    no [GMXHR.get] logs at debug level; the refusal to store [null] or
    [undefined] is still logged as a warning, and a failed request is
    still logged as an error.  A later call of [Cache], quiet or not,
    does not restore [debug]. *)
Theorem quiet_silences_debug_of_the_library
    (storageType ttl quiet : value) (s : state) :
  ToBoolean quiet = true ->
  debug_silenced (Cache storageType ttl quiet s).2 = true /\
  (forall c k f e,
     In e (logged (cache c k f (Cache storageType ttl quiet s).2)) -> e.1 <> Debug) /\
  (forall c p, (clear c p (Cache storageType ttl quiet s).2).1 = []) /\
  (forall url resp e,
     In e (GMXHR.get url resp (Cache storageType ttl quiet s).2).2 -> e.1 <> Debug) /\
  (forall c k f v,
     invoked (cache c k f (Cache storageType ttl quiet s).2) = true ->
     settled (cache c k f (Cache storageType ttl quiet s).2) = Resolved v ->
     v = VNull \/ v = VUndefined ->
     In (Warn, [Text "[GMLib]"; Text refusal_message; Fn])
        (logged (cache c k f (Cache storageType ttl quiet s).2))) /\
  (forall url resp,
     (200 <=? status resp) && (status resp <? 300) = false ->
     exists args,
       In (Error, args) (GMXHR.get url (Some resp) (Cache storageType ttl quiet s).2).2) /\
  (forall storageType' ttl' quiet',
     debug_silenced (Cache storageType' ttl' quiet' (Cache storageType ttl quiet s).2).2
     = true).
Proof.
  intros Hq.
  assert (Hs : debug_silenced (Cache storageType ttl quiet s).2 = true).
  { unfold Cache. rewrite Hq. now destruct (chooseStorage storageType). }
  set (s' := (Cache storageType ttl quiet s).2) in *. clearbody s'.
  assert (Hd : forall args, debug args s' = []) by (intros; unfold debug; now rewrite Hs).
  split; [exact Hs|]. split; [|split; [|split; [|split; [|split]]]].
  - intros c k f e. cache_cases f s'; rewrite ?Hd; simpl; try tauto;
      intros [<-|[]]; discriminate.
  - intros c p. unfold clear. cbn [fst]. rewrite !Hd. now destruct (ToBoolean p).
  - intros url resp e. unfold GMXHR.get. rewrite Hd.
    destruct resp as [r|]; simpl; try tauto.
    destruct ((200 <=? status r) && (status r <? 300)); simpl; try tauto.
    intros [<-|[]]; discriminate.
  - intros c k f v. cache_cases f s'; rewrite ?Hd; try discriminate;
      cbn [settled logged]; intros _ [= ->] [-> | ->]; try discriminate;
      now left.
  - intros url resp Hst. unfold GMXHR.get. rewrite Hd, Hst. cbn [snd app].
    eexists. now left.
  - intros storageType' ttl' quiet'. unfold Cache.
    destruct (chooseStorage storageType'), (ToBoolean quiet'); simpl; auto.
Qed.

Lemma quiet_silences_debug_of_the_library_witness :
  debug_silenced (Cache (VStr "local") VUndefined (VBool true) s0).2 = true.
Proof.
  apply (proj1 (quiet_silences_debug_of_the_library
                  (VStr "local") VUndefined (VBool true) s0 eq_refl)).
Defined.

(** C9.  Every [storageType] other than the strings ["local"] and
    ["script"] makes [Cache] throw the invalid-storage-type message, and
    no instance is returned; ["local"] selects the page-storage adapter
    and ["script"] the script-storage adapter. *)
Theorem Cache_selects_adapter_or_throws (storageType ttl quiet : value) (s : state) :
  (storageType <> VStr "local" -> storageType <> VStr "script" ->
   (Cache storageType ttl quiet s).1 = inl (Thrown (VStr invalid_storage_type))) /\
  (exists c, (Cache (VStr "local") ttl quiet s).1 = inr c /\ storage c = siteStorage) /\
  (exists c, (Cache (VStr "script") ttl quiet s).1 = inr c /\ storage c = scriptStorage).
Proof.
  split; [|split; eexists; split; reflexivity].
  intros Hl Hs. unfold Cache, chooseStorage.
  assert (E : forall t, storageType <> VStr t -> strict_eq_string storageType t = false).
  { intros t Ht. destruct storageType; try reflexivity.
    simpl. apply String.eqb_neq. congruence. }
  now rewrite (E _ Hl), (E _ Hs).
Qed.

Lemma Cache_selects_adapter_or_throws_witness :
  (Cache (VStr "session") VUndefined VUndefined s0).1
  = inl (Thrown (VStr invalid_storage_type)).
Proof.
  apply (proj1 (Cache_selects_adapter_or_throws (VStr "session") VUndefined VUndefined s0));
    discriminate.
Defined.

(** C10, as it stands, fails: a negative [ttl] is a construction-time
    configuration under which an entry is expired at the very instant
    it was written. *)
Lemma negative_ttl_entry_expired_at_once :
  (Cache (VStr "local") (VNum (Num (-1))) VUndefined s0).1 = inr negative /\
  settled (cache negative "k" (returning (VStr "v")) s0) = Resolved (VStr "v") /\
  get siteStorage "gmlib|k" (final (cache negative "k" (returning (VStr "v")) s0))
  = JSON.stringify (entry (clock (final (cache negative "k" (returning (VStr "v")) s0)))
                      (VStr "v")) /\
  invoked (cache negative "k" (returning (VStr "v"))
             (final (cache negative "k" (returning (VStr "v")) s0))) = true.
Proof. vm_compute. repeat split. Qed.

(** C10, amended.  For every falsy [ttl], the number [0] included, the
    instance's TTL is the default of two days, 172800000 ms; no number
    passed as [ttl] yields a TTL of zero; and under a TTL that is not
    negative an entry read at the instant it was stored is served, not
    expired. *)
Theorem falsy_ttl_is_two_days (storageType ttl quiet : value) (s : state) (c : instance) :
  (Cache storageType ttl quiet s).1 = inr c ->
  (ToBoolean ttl = false -> TTL c = Num 172800000) /\
  (forall n, ttl = VNum n -> TTL c <> Num 0) /\
  (forall t k f s1 item v,
     TTL c = Num t -> 0 <= t ->
     JSON.parse (get (storage c) (NAMESPACE +:+ k) s1) = Some item ->
     member item "stored" = inr (VNum (Num (clock s1))) ->
     member item "value" = inr v ->
     settled (cache c k f s1) = Resolved v /\ invoked (cache c k f s1) = false).
Proof.
  intros Hc.
  assert (HT : TTL c = mul (ToNumber (or_else ttl (VNum (Num (3600 * 24 * 2))))) (Num 1000)).
  { unfold Cache in Hc. destruct (chooseStorage storageType); simpl in Hc; [discriminate|].
    now injection Hc as <-. }
  split; [|split].
  - intros Hf. rewrite HT. unfold or_else. now rewrite Hf.
  - intros n ->. rewrite HT. unfold or_else.
    destruct n as [|z]; [discriminate|]. simpl ToBoolean.
    destruct (Z.eqb_spec z 0) as [->|Hz]; simpl; [discriminate|].
    intros [= H]. lia.
  - intros t k f s1 item v Ht Hpos Hp Hs Hv.
    pose proof (read_item_numeric c _ (clock s1) item (clock s1) t Ht Hp Hs) as Hr.
    rewrite Hv in Hr. destruct (Z.ltb_spec t (clock s1 - clock s1)); [lia|].
    now rewrite (cache_fresh _ _ _ _ _ Hr).
Qed.

Lemma falsy_ttl_is_two_days_witness :
  TTL two_days = Num 172800000 /\
  TTL two_days <> Num 0 /\
  (settled (cache two_days "rating" (returning (VStr "new"))
              (holding "gmlib|rating" rating_text s0)) = Resolved (VStr "8.9") /\
   invoked (cache two_days "rating" (returning (VStr "new"))
              (holding "gmlib|rating" rating_text s0)) = false).
Proof.
  pose proof (falsy_ttl_is_two_days (VStr "local") (VNum (Num 0)) VUndefined s0
                two_days eq_refl) as (H1 & H2 & H3).
  split; [apply H1; reflexivity|].
  split; [apply (H2 (Num 0)); reflexivity|].
  apply (H3 172800000 "rating" (returning (VStr "new"))
           (holding "gmlib|rating" rating_text s0) (entry 1000 (VStr "8.9")) (VStr "8.9"));
    [reflexivity | vm_compute; discriminate | vm_compute; reflexivity
    | reflexivity | reflexivity].
Defined.

(** ** Further properties of the code *)

Import RequestFacts StorageFacts InstanceFacts.

(** *** The request helpers *)

(** X1.  [GMXHR.get] settles by the status alone: from 200 up to 299
    the promise resolves with the response text and no error is
    logged; below 200 or from 300 on it rejects with the status as a
    number and logs one error that carries the status text. *)
Theorem get_settles_by_status (url : string) (r : response) (s : state) :
  (200 <= status r < 300 ->
   (GMXHR.get url (Some r) s).1 = Resolved (VStr (responseText r)) /\
   forall e, In e (GMXHR.get url (Some r) s).2 -> e.1 <> Error) /\
  (status r < 200 \/ 300 <= status r ->
   (GMXHR.get url (Some r) s).1 = Rejected (Thrown (VNum (Num (status r)))) /\
   exists args,
     In (Error, args) (GMXHR.get url (Some r) s).2 /\ In (Text (statusText r)) args).
Proof.
  split; intros H.
  - rewrite (get_success url r s H). split; [reflexivity|].
    intros e. unfold debug. destruct (debug_silenced s); simpl; [tauto|].
    intros [<-|[]]. discriminate.
  - rewrite (get_failure url r s H). split; [reflexivity|].
    eexists. split; [apply in_or_app; right; left; reflexivity|].
    simpl. tauto.
Qed.

Lemma get_settles_by_status_witness :
  (GMXHR.get "u" (Some (ok_response "body")) s0).1 = Resolved (VStr "body") /\
  (GMXHR.get "u" (Some not_found) s0).1 = Rejected (Thrown (VNum (Num 404))).
Proof.
  split.
  - apply (proj1 (get_settles_by_status "u" (ok_response "body") s0)).
    vm_compute. split; [discriminate|reflexivity].
  - apply (proj2 (get_settles_by_status "u" not_found s0)).
    right. vm_compute. discriminate.
Defined.

(** X2.  [GMXHR.getJson] on a successful response whose body is the
    JSON text of a value resolves with that value; on a successful
    response with an empty body it rejects with the [SyntaxError] of
    [JSON.parse]; on a failed response it rejects with the status,
    the body unread.  It logs what [get] logs. *)
Theorem getJson_parses_the_body (url : string) (r : response) (s : state) :
  (forall v,
     200 <= status r < 300 -> JSON.serializable v = true ->
     JSON.stringify v = VStr (responseText r) ->
     (GMXHR.getJson url (Some r) s).1 = Resolved v) /\
  (200 <= status r < 300 -> responseText r = "" ->
   (GMXHR.getJson url (Some r) s).1 = Rejected SyntaxError) /\
  (status r < 200 \/ 300 <= status r ->
   (GMXHR.getJson url (Some r) s).1 = Rejected (Thrown (VNum (Num (status r))))) /\
  (forall resp, (GMXHR.getJson url resp s).2 = (GMXHR.get url resp s).2).
Proof.
  split; [|split; [|split]].
  - intros v H Hv Ht. unfold GMXHR.getJson.
    rewrite (get_success url r s H).
    now rewrite <- Ht, (JSONFacts.parse_stringify v Hv).
  - intros H Hb. unfold GMXHR.getJson.
    rewrite (get_success url r s H). now rewrite Hb.
  - intros H. unfold GMXHR.getJson.
    now rewrite (get_failure url r s H).
  - intros resp. unfold GMXHR.getJson.
    destruct (GMXHR.get url resp s) as [[json|e|] log]; try reflexivity.
    now destruct (JSON.parse json).
Qed.

Lemma getJson_parses_the_body_witness :
  (GMXHR.getJson "u" (Some (ok_response rating_text)) s0).1
  = Resolved (entry 1000 (VStr "8.9")) /\
  (GMXHR.getJson "u" (Some (ok_response "")) s0).1 = Rejected SyntaxError /\
  (GMXHR.getJson "u" (Some not_found) s0).1 = Rejected (Thrown (VNum (Num 404))).
Proof.
  pose proof (getJson_parses_the_body "u" (ok_response rating_text) s0) as (H1 & _).
  pose proof (getJson_parses_the_body "u" (ok_response "") s0) as (_ & H2 & _).
  pose proof (getJson_parses_the_body "u" not_found s0) as (_ & _ & H3 & _).
  split; [|split].
  - apply H1; [vm_compute; (split; [discriminate|reflexivity]) | reflexivity | reflexivity].
  - apply H2; [vm_compute; (split; [discriminate|reflexivity]) | reflexivity].
  - apply H3. right. vm_compute. discriminate.
Defined.

(** *** The storage adapters *)

(** X3.  Reading back what an adapter wrote, for the keys the library
    passes to the page storage (those that begin with its namespace)
    and for every key of the script storage: the page storage returns
    the string of the value written, the script storage the value
    itself.  A write or a deletion under one key leaves every other
    such key as it was; a deleted key reads [undefined]; deleting a key
    that is not stored changes nothing. *)
Theorem adapters_read_back_what_they_wrote (k k' key key' : string) (v : value) (s : state) :
  get siteStorage (NAMESPACE +:+ k) (set siteStorage (NAMESPACE +:+ k) v s)
  = VStr (ToString v) /\
  get scriptStorage key (set scriptStorage key v s) = v /\
  get siteStorage (NAMESPACE +:+ k) (delete siteStorage (NAMESPACE +:+ k) s) = VUndefined /\
  get scriptStorage key (delete scriptStorage key s) = VUndefined /\
  (k <> k' ->
   get siteStorage (NAMESPACE +:+ k') (set siteStorage (NAMESPACE +:+ k) v s)
   = get siteStorage (NAMESPACE +:+ k') s /\
   get siteStorage (NAMESPACE +:+ k') (delete siteStorage (NAMESPACE +:+ k) s)
   = get siteStorage (NAMESPACE +:+ k') s) /\
  (key <> key' ->
   get scriptStorage key' (set scriptStorage key v s) = get scriptStorage key' s /\
   get scriptStorage key' (delete scriptStorage key s) = get scriptStorage key' s) /\
  (get siteStorage (NAMESPACE +:+ k) s = VUndefined ->
   delete siteStorage (NAMESPACE +:+ k) s = s) /\
  (GM_values s !! key = None -> delete scriptStorage key s = s).
Proof.
  cbn [get set delete siteStorage scriptStorage with_localStorage with_GM_values
       localStorage GM_values].
  rewrite !lookup_insert_eq, !lookup_delete_eq.
  split; [reflexivity|]. split; [reflexivity|]. split; [reflexivity|].
  split; [reflexivity|]. split; [|split; [|split]].
  - intros Hk.
    assert (Hne : NAMESPACE +:+ k <> NAMESPACE +:+ k')
      by (intros H; apply append_inj in H; contradiction).
    now rewrite lookup_insert_ne, lookup_delete_ne by assumption.
  - intros Hne. now rewrite lookup_insert_ne, lookup_delete_ne by assumption.
  - intros H. apply state_eq; try reflexivity. cbn. apply delete_id.
    now destruct (localStorage s !! (NAMESPACE +:+ k)).
  - intros H. apply state_eq; try reflexivity. cbn. now apply delete_id.
Qed.

Lemma adapters_read_back_what_they_wrote_witness :
  get siteStorage "gmlib|b"
    (set siteStorage "gmlib|a" (VNum (Num 5)) (holding "gmlib|b" "kept" s0))
  = VStr "kept" /\
  get scriptStorage "b" (set scriptStorage "a" (VNum (Num 5)) s0) = VUndefined /\
  delete siteStorage "gmlib|a" s0 = s0 /\
  delete scriptStorage "a" s0 = s0.
Proof.
  pose proof (adapters_read_back_what_they_wrote "a" "b" "a" "b" (VNum (Num 5))
                (holding "gmlib|b" "kept" s0)) as (_ & _ & _ & _ & H1 & _).
  pose proof (adapters_read_back_what_they_wrote "a" "b" "a" "b" (VNum (Num 5)) s0)
    as (_ & _ & _ & _ & _ & H2 & H3 & H4).
  split; [|split; [|split]].
  - etransitivity; [apply H1; discriminate | reflexivity].
  - etransitivity; [apply H2; discriminate | reflexivity].
  - apply H3. reflexivity.
  - apply H4. reflexivity.
Defined.

(** X4.  [keys] and the keys of the namespace.  A key that begins with
    the namespace is listed by the page adapter exactly when it reads
    other than [undefined] there; a key is listed by the script adapter
    exactly when a value is stored under it; neither list repeats a
    key.  After a write under a key the written key is listed beside
    the former ones, after a deletion the deleted key is not; for the
    page adapter this is stated of the keys of the namespace. *)
Theorem keys_lists_the_stored_keys (k k' key key' : string) (v : value) (s : state) :
  (NAMESPACE +:+ k ∈ keys siteStorage s
   <-> get siteStorage (NAMESPACE +:+ k) s <> VUndefined) /\
  (key ∈ keys scriptStorage s <-> is_Some (GM_values s !! key)) /\
  NoDup (keys siteStorage s) /\ NoDup (keys scriptStorage s) /\
  (NAMESPACE +:+ k' ∈ keys siteStorage (set siteStorage (NAMESPACE +:+ k) v s)
   <-> k' = k \/ NAMESPACE +:+ k' ∈ keys siteStorage s) /\
  (key' ∈ keys scriptStorage (set scriptStorage key v s)
   <-> key' = key \/ key' ∈ keys scriptStorage s) /\
  (NAMESPACE +:+ k' ∈ keys siteStorage (delete siteStorage (NAMESPACE +:+ k) s)
   <-> k' <> k /\ NAMESPACE +:+ k' ∈ keys siteStorage s) /\
  (key' ∈ keys scriptStorage (delete scriptStorage key s)
   <-> key' <> key /\ key' ∈ keys scriptStorage s).
Proof.
  cbn [get set delete keys siteStorage scriptStorage with_localStorage with_GM_values
       localStorage GM_values].
  rewrite !elem_of_keys.
  assert (Hinj : NAMESPACE +:+ k' = NAMESPACE +:+ k <-> k' = k)
    by (split; [apply append_inj|congruence]).
  split; [|split; [reflexivity|split; [|split; [|split; [|split; [|split]]]]]].
  - destruct (localStorage s !! (NAMESPACE +:+ k)); split;
      try discriminate; try congruence; eauto.
    intros []; discriminate.
  - apply NoDup_fst_map_to_list.
  - apply NoDup_fst_map_to_list.
  - destruct (decide (k' = k)) as [->|Hne].
    + rewrite lookup_insert_eq. split; eauto.
    + rewrite lookup_insert_ne by (intros H; apply append_inj in H; congruence).
      split; [auto|]. intros [?|?]; [contradiction|auto].
  - destruct (decide (key' = key)) as [->|Hne].
    + rewrite lookup_insert_eq. split; eauto.
    + rewrite lookup_insert_ne by congruence.
      split; [auto|]. intros [?|?]; [contradiction|auto].
  - destruct (decide (k' = k)) as [->|Hne].
    + rewrite lookup_delete_eq. split; [intros []; discriminate|intros []; contradiction].
    + rewrite lookup_delete_ne by (intros H; apply append_inj in H; congruence).
      tauto.
  - destruct (decide (key' = key)) as [->|Hne].
    + rewrite lookup_delete_eq. split; [intros []; discriminate|intros []; contradiction].
    + rewrite lookup_delete_ne by congruence. tauto.
Qed.

(** X5.  A call [cache(k, f)] on an instance built by [Cache] changes
    at most one key, the namespaced [k], of its own backend: compared
    with the state the producer left (the state of the call when the
    producer is not invoked), every other key of both backends, the
    clock and the binding of [debug] are the same, and no key that was
    stored has disappeared. *)
Theorem cache_writes_only_its_own_key
    (storageType ttl quiet : value) (s_built : state)
    (c : instance) (k : string) (f : producer) (s : state) (key' : string) :
  (Cache storageType ttl quiet s_built).1 = inr c ->
  let r := cache c k f s in
  let base := if invoked r then (f s).2 else s in
  clock (final r) = clock base /\
  debug_silenced (final r) = debug_silenced base /\
  (key' <> NAMESPACE +:+ k ->
   localStorage (final r) !! key' = localStorage base !! key' /\
   GM_values (final r) !! key' = GM_values base !! key') /\
  (is_Some (localStorage base !! key') -> is_Some (localStorage (final r) !! key')) /\
  (is_Some (GM_values base !! key') -> is_Some (GM_values (final r) !! key')).
Proof.
  intros Hc. apply Cache_storage in Hc. cbv zeta.
  cache_cases f s; cbn [invoked final snd]; try (repeat split; auto; fail).
  all: destruct Hc as [-> | ->];
    cbn [set siteStorage scriptStorage with_localStorage with_GM_values
         localStorage GM_values clock debug_silenced];
    repeat split; auto;
    try (now rewrite lookup_insert_ne by congruence);
    try (intros Hs; destruct (decide (key' = NAMESPACE +:+ k)) as [->|Hne];
         [rewrite lookup_insert_eq; eauto | now rewrite lookup_insert_ne by congruence]).
Qed.

Lemma cache_writes_only_its_own_key_witness :
  localStorage (final (cache two_days "k" (returning (VStr "v")) (holding "other" "kept" s0)))
  !! "other" = Some "kept".
Proof.
  pose proof (cache_writes_only_its_own_key (VStr "local") VUndefined VUndefined s0
                two_days "k" (returning (VStr "v")) (holding "other" "kept" s0) "other"
                eq_refl) as (_ & _ & H & _).
  etransitivity; [apply H; discriminate | reflexivity].
Defined.

(** X6.  Distinct keys have distinct entries.  After a call for
    another key [k'], whatever its producer yields, a call for [k]
    decides as it would have on the state the producer of the first
    call left: the producer of [k] is invoked in the one case exactly
    when it is in the other, and a hit resolves with the same value. *)
Theorem other_key_does_not_disturb
    (storageType ttl quiet : value) (s_built : state)
    (c : instance) (k k' : string) (f g : producer) (s : state) :
  (Cache storageType ttl quiet s_built).1 = inr c ->
  k <> k' ->
  let base := if invoked (cache c k' f s) then (f s).2 else s in
  invoked (cache c k g (final (cache c k' f s))) = invoked (cache c k g base) /\
  (invoked (cache c k g base) = false ->
   settled (cache c k g (final (cache c k' f s))) = settled (cache c k g base)).
Proof.
  intros Hc Hk. cbv zeta.
  assert (Hne : NAMESPACE +:+ k <> NAMESPACE +:+ k')
    by (intros H; apply append_inj in H; contradiction).
  apply cache_lookup_congruence.
  - apply Cache_storage in Hc.
    cache_cases f s; cbn [invoked final snd]; try reflexivity;
      destruct Hc as [-> | ->];
      cbn [get set siteStorage scriptStorage with_localStorage with_GM_values
           localStorage GM_values];
      now rewrite lookup_insert_ne by congruence.
  - apply Cache_storage in Hc.
    cache_cases f s; cbn [invoked final snd]; try reflexivity;
      now destruct Hc as [-> | ->].
Qed.

Lemma other_key_does_not_disturb_witness :
  invoked (cache two_days "rating" (returning (VStr "new"))
             (final (cache two_days "title" (returning (VStr "t"))
                       (holding "gmlib|rating" rating_text s0))))
  = false.
Proof.
  etransitivity;
    [apply (other_key_does_not_disturb (VStr "local") VUndefined VUndefined s0
              two_days "rating" "title" (returning (VStr "t")) (returning (VStr "new"))
              (holding "gmlib|rating" rating_text s0) eq_refl)
    | reflexivity].
  discriminate.
Defined.

(** X7.  After [clear(p)], a call for any key that begins with [p]
    (any key at all when [p] is omitted) is a miss: its producer is
    invoked. *)
Theorem cleared_key_is_a_miss
    (storageType ttl quiet : value) (s_built : state)
    (c : instance) (p : option string) (rest : string) (f : producer) (s : state) :
  (Cache storageType ttl quiet s_built).1 = inr c ->
  invoked (cache c (default "" p +:+ rest) f
             (clear c (match p with Some t => VStr t | None => VUndefined end) s).2)
  = true.
Proof.
  intros Hc. apply Cache_storage in Hc. apply cache_absent_invoked.
  destruct (clear_get c (match p with Some t => VStr t | None => VUndefined end) s
              (NAMESPACE +:+ (default "" p +:+ rest)) Hc) as (-> & _).
  rewrite clear_prefix_of_string, prefix_append.
  assert (E : String.prefix (default "" p) (default "" p +:+ rest) = true)
    by (apply prefix_starts_with; eauto).
  now rewrite E.
Qed.

Lemma cleared_key_is_a_miss_witness :
  invoked (cache two_days "rating" (returning (VStr "new"))
             (clear two_days VUndefined (holding "gmlib|rating" rating_text s0)).2)
  = true.
Proof.
  apply (cleared_key_is_a_miss (VStr "local") VUndefined VUndefined s0 two_days
           None "rating" (returning (VStr "new"))
           (holding "gmlib|rating" rating_text s0) eq_refl).
Defined.

(** X8.  [clear(p)] with a string [p] does not disturb a key that does
    not begin with [p]: a call for such a key decides after the clear
    as it does before it, and a hit resolves with the same value. *)
Theorem clear_spares_the_other_keys
    (storageType ttl quiet : value) (s_built : state)
    (c : instance) (p k : string) (f g : producer) (s : state) :
  (Cache storageType ttl quiet s_built).1 = inr c ->
  ~ (exists rest, k = p +:+ rest) ->
  invoked (cache c k f (clear c (VStr p) s).2) = invoked (cache c k g s) /\
  (invoked (cache c k g s) = false ->
   settled (cache c k f (clear c (VStr p) s).2) = settled (cache c k g s)).
Proof.
  intros Hc Hk. apply Cache_storage in Hc.
  destruct (clear_get c (VStr p) s (NAMESPACE +:+ k) Hc) as (Hg & Hcl & _).
  apply cache_lookup_congruence; [|exact Hcl].
  rewrite Hg, (clear_prefix_of_string (Some p)), prefix_append.
  destruct (String.prefix (default "" (Some p)) k) eqn:E; [|reflexivity].
  apply prefix_starts_with in E. contradiction.
Qed.

Lemma clear_spares_the_other_keys_witness :
  invoked (cache two_days "rating" (returning (VStr "new"))
             (clear two_days (VStr "title") (holding "gmlib|rating" rating_text s0)).2)
  = false.
Proof.
  etransitivity;
    [apply (clear_spares_the_other_keys (VStr "local") VUndefined VUndefined s0
              two_days "title" "rating" (returning (VStr "new")) (returning (VStr "new"))
              (holding "gmlib|rating" rating_text s0) eq_refl)
    | reflexivity].
  intros [rest H]. discriminate H.
Defined.

(** X9.  Clearing twice is clearing once: for any prefix argument, a
    second [clear] with the same argument finds nothing to delete,
    leaves the state of the first and logs the same. *)
Theorem clear_is_idempotent
    (storageType ttl quiet : value) (s_built : state)
    (c : instance) (p : value) (s : state) :
  (Cache storageType ttl quiet s_built).1 = inr c ->
  (clear c p (clear c p s).2).2 = (clear c p s).2 /\
  (clear c p (clear c p s).2).1 = (clear c p s).1.
Proof.
  intros Hc. apply Cache_storage in Hc. rewrite (instance_eta c).
  destruct Hc as [-> | ->].
  - destruct (clear_site (TTL c) p s) as (Hl & Hg & Hk & Hd).
    destruct (clear_site (TTL c) p
                (clear {| TTL := TTL c; storage := siteStorage |} p s).2)
      as (Hl2 & Hg2 & Hk2 & Hd2).
    split.
    + apply state_eq; try assumption.
      apply map_eq. intros k. rewrite Hl2, Hl. now destruct (String.prefix _ k).
    + unfold clear at 1 3. cbn [fst]. unfold debug. now rewrite Hd.
  - destruct (clear_script (TTL c) p s) as (Hl & Hg & Hk & Hd).
    destruct (clear_script (TTL c) p
                (clear {| TTL := TTL c; storage := scriptStorage |} p s).2)
      as (Hl2 & Hg2 & Hk2 & Hd2).
    split.
    + apply state_eq; try assumption.
      apply map_eq. intros k. rewrite Hl2, Hl. now destruct (String.prefix _ k).
    + unfold clear at 1 3. cbn [fst]. unfold debug. now rewrite Hd.
Qed.

Lemma clear_is_idempotent_witness :
  (clear two_days (VStr "rat")
     (clear two_days (VStr "rat") (holding "gmlib|rating" rating_text s0)).2).2
  = (clear two_days (VStr "rat") (holding "gmlib|rating" rating_text s0)).2.
Proof.
  apply (clear_is_idempotent (VStr "local") VUndefined VUndefined s0 two_days
           (VStr "rat") (holding "gmlib|rating" rating_text s0) eq_refl).
Defined.

(** X10.  Whatever is passed as prefix, a string or any other value,
    [clear] leaves every key that does not begin with the namespace
    [gmlib|] under its value, in both backends. *)
Theorem clear_stays_inside_the_namespace
    (storageType ttl quiet : value) (s_built : state)
    (c : instance) (p : value) (s : state) (key : string) :
  (Cache storageType ttl quiet s_built).1 = inr c ->
  ~ (exists rest, key = "gmlib|" +:+ rest) ->
  localStorage (clear c p s).2 !! key = localStorage s !! key /\
  GM_values (clear c p s).2 !! key = GM_values s !! key.
Proof.
  intros Hc Hk. apply Cache_storage in Hc. rewrite (instance_eta c).
  assert (E : String.prefix (NAMESPACE +:+ ToString (or_else p (VStr ""))) key = false).
  { destruct (String.prefix _ key) eqn:E; [|reflexivity].
    apply prefix_namespace, prefix_starts_with in E. contradiction. }
  destruct Hc as [-> | ->].
  - destruct (clear_site (TTL c) p s) as (Hl & -> & _). now rewrite Hl, E.
  - destruct (clear_script (TTL c) p s) as (Hl & -> & _). now rewrite Hl, E.
Qed.

Lemma clear_stays_inside_the_namespace_witness :
  localStorage (clear two_days (VNum (Num 5)) (holding "5" "kept" s0)).2 !! "5"
  = Some "kept".
Proof.
  pose proof (clear_stays_inside_the_namespace (VStr "local") VUndefined VUndefined s0
                two_days (VNum (Num 5)) (holding "5" "kept" s0) "5" eq_refl) as H.
  etransitivity; [apply H | reflexivity].
  intros [rest E]. discriminate E.
Defined.

(** X11.  A hit changes nothing and logs nothing; in particular it does
    not renew the entry: whenever the same raw entry is read again
    later than the TTL after the time it was stored, the producer is
    invoked, however recent the last hit. *)
Theorem hit_does_not_renew_the_entry
    (c : instance) (k : string) (f g : producer) (s s2 : state)
    (item v : value) (T t : Z) :
  TTL c = Num t ->
  JSON.parse (get (storage c) (NAMESPACE +:+ k) s) = Some item ->
  member item "stored" = inr (VNum (Num T)) ->
  member item "value" = inr v ->
  clock s - T <= t ->
  final (cache c k f s) = s /\
  logged (cache c k f s) = [] /\
  (get (storage c) (NAMESPACE +:+ k) s2
   = get (storage c) (NAMESPACE +:+ k) (final (cache c k f s)) ->
   clock s2 - T > t ->
   invoked (cache c k g s2) = true).
Proof.
  intros Ht Hp Hs Hv Hage.
  pose proof (read_item_numeric c _ (clock s) item T t Ht Hp Hs) as Hr.
  rewrite Hv in Hr. destruct (Z.ltb_spec t (clock s - T)); [lia|].
  rewrite (cache_fresh _ _ _ _ _ Hr). cbn [final logged].
  repeat split. intros Hsame Hlate. apply cache_stale_invoked.
  rewrite Hsame in *.
  rewrite (read_item_numeric c _ (clock s2) item T t Ht Hp Hs).
  destruct (Z.ltb_spec t (clock s2 - T)); [reflexivity|lia].
Qed.

Lemma hit_does_not_renew_the_entry_witness :
  final (cache one_minute "rating" (returning (VStr "new"))
           (holding "gmlib|rating" rating_text (later 59000 s0)))
  = holding "gmlib|rating" rating_text (later 59000 s0) /\
  logged (cache one_minute "rating" (returning (VStr "new"))
            (holding "gmlib|rating" rating_text (later 59000 s0))) = [] /\
  invoked (cache one_minute "rating" (returning (VStr "new"))
             (holding "gmlib|rating" rating_text (later 61000 s0))) = true.
Proof.
  pose proof (hit_does_not_renew_the_entry one_minute "rating"
                (returning (VStr "new")) (returning (VStr "new"))
                (holding "gmlib|rating" rating_text (later 59000 s0))
                (holding "gmlib|rating" rating_text (later 61000 s0))
                (entry 1000 (VStr "8.9")) (VStr "8.9") 1000 60000
                eq_refl eq_refl eq_refl eq_refl) as H.
  destruct H as (H1 & H2 & H3); [vm_compute; discriminate|].
  split; [exact H1|]. split; [exact H2|].
  apply H3; [reflexivity | vm_compute; reflexivity].
Defined.

(** X12.  Instances built for the same storage type share their
    entries, and an entry carries no TTL of its own: what one instance
    wrote for [k] at time [clock s'] is served by another instance
    while the age is within that other instance's TTL, and recomputed
    by it beyond, whatever the TTL of the writer. *)
Theorem entry_is_judged_by_the_TTL_of_the_reader
    (storageType ttl1 quiet1 ttl2 quiet2 : value) (sb1 sb2 : state)
    (c1 c2 : instance) (k : string) (f g : producer) (s s' s2 : state)
    (v : value) (t2 : Z) :
  (Cache storageType ttl1 quiet1 sb1).1 = inr c1 ->
  (Cache storageType ttl2 quiet2 sb2).1 = inr c2 ->
  TTL c2 = Num t2 ->
  invoked (cache c1 k f s) = true ->
  f s = (Returns v, s') \/ f s = (ReturnsPromise (Fulfils v), s') ->
  JSON.serializable v = true -> v <> VNull ->
  get (storage c2) (NAMESPACE +:+ k) s2
  = get (storage c1) (NAMESPACE +:+ k) (final (cache c1 k f s)) ->
  (clock s2 - clock s' <= t2 ->
   settled (cache c2 k g s2) = Resolved v /\ invoked (cache c2 k g s2) = false) /\
  (clock s2 - clock s' > t2 -> invoked (cache c2 k g s2) = true).
Proof.
  intros H1 H2 Ht Hi Hf Hser Hnn Hsame.
  pose proof (Cache_same_storage _ _ _ _ _ _ _ _ _ H1 H2) as Hst.
  apply Cache_storage in H1.
  destruct (written_entry c1 k f s s' v H1 Hi Hf (serializable_defined v Hser Hnn))
    as (_ & _ & Hget).
  rewrite Hget in Hsame. split; intros Hage.
  - rewrite (served_after_write c2 k g v t2 (clock s') s2 Ht Hser Hsame Hage).
    now split.
  - apply cache_stale_invoked.
    assert (Hp : JSON.parse (get (storage c2) (NAMESPACE +:+ k) s2)
                 = Some (entry (clock s') v)).
    { rewrite Hsame. apply JSONFacts.parse_stringify. simpl. now rewrite Hser. }
    rewrite (read_item_numeric c2 _ (clock s2) _ (clock s') t2 Ht Hp eq_refl).
    destruct (Z.ltb_spec t2 (clock s2 - clock s')); [reflexivity|lia].
Qed.

Lemma entry_is_judged_by_the_TTL_of_the_reader_witness :
  (settled (cache two_days "k" (returning (VStr "new"))
              (later 61000 (final (cache one_minute "k" (returning (VStr "v")) s0))))
   = Resolved (VStr "v") /\
   invoked (cache two_days "k" (returning (VStr "new"))
              (later 61000 (final (cache one_minute "k" (returning (VStr "v")) s0))))
   = false) /\
  invoked (cache one_minute "k" (returning (VStr "new"))
             (later 61000 (final (cache two_days "k" (returning (VStr "v")) s0))))
  = true.
Proof.
  split.
  - apply (entry_is_judged_by_the_TTL_of_the_reader
             (VStr "local") (VNum (Num 60)) VUndefined VUndefined VUndefined s0 s0
             one_minute two_days "k" (returning (VStr "v")) (returning (VStr "new"))
             s0 s0 (later 61000 (final (cache one_minute "k" (returning (VStr "v")) s0)))
             (VStr "v") 172800000);
      [reflexivity | reflexivity | reflexivity | reflexivity | left; reflexivity
      | reflexivity | discriminate | reflexivity | vm_compute; discriminate].
  - apply (entry_is_judged_by_the_TTL_of_the_reader
             (VStr "local") VUndefined VUndefined (VNum (Num 60)) VUndefined s0 s0
             two_days one_minute "k" (returning (VStr "v")) (returning (VStr "new"))
             s0 s0 (later 61000 (final (cache two_days "k" (returning (VStr "v")) s0)))
             (VStr "v") 60000);
      [reflexivity | reflexivity | reflexivity | reflexivity | left; reflexivity
      | reflexivity | discriminate | reflexivity | vm_compute; reflexivity].
Defined.

(** X13.  The two backends do not see each other.  After a call on a
    page-storage instance, whatever it wrote, a call for the same key
    on a script-storage instance decides as it would have on the state
    the producer left, and the other way round. *)
Theorem backends_do_not_see_each_other
    (t1 t2 : number) (k : string) (f g : producer) (s : state) :
  let local := {| TTL := t1; storage := siteStorage |} in
  let script := {| TTL := t2; storage := scriptStorage |} in
  (invoked (cache script k g (final (cache local k f s)))
   = invoked (cache script k g (if invoked (cache local k f s) then (f s).2 else s)) /\
   (invoked (cache script k g (if invoked (cache local k f s) then (f s).2 else s)) = false ->
    settled (cache script k g (final (cache local k f s)))
    = settled (cache script k g (if invoked (cache local k f s) then (f s).2 else s)))) /\
  (invoked (cache local k g (final (cache script k f s)))
   = invoked (cache local k g (if invoked (cache script k f s) then (f s).2 else s)) /\
   (invoked (cache local k g (if invoked (cache script k f s) then (f s).2 else s)) = false ->
    settled (cache local k g (final (cache script k f s)))
    = settled (cache local k g (if invoked (cache script k f s) then (f s).2 else s)))).
Proof.
  cbv zeta. split; apply cache_lookup_congruence;
    cache_cases f s; cbn [invoked final snd]; reflexivity.
Qed.

Lemma backends_do_not_see_each_other_witness :
  invoked (cache script_two_days "k" (returning (VStr "new"))
             (final (cache two_days "k" (returning (VStr "v")) s0))) = true.
Proof.
  etransitivity;
    [apply (backends_do_not_see_each_other (Num 172800000) (Num 172800000) "k"
              (returning (VStr "v")) (returning (VStr "new")) s0)
    | reflexivity].
Defined.

(** X14.  The [ttl] argument counts seconds.  An instance built with a
    number [n] other than zero has a TTL of [1000 * n] milliseconds:
    an entry stored at [T] is served up to and including
    [T + 1000 * n] on the clock, and recomputed after. *)
Theorem ttl_argument_is_in_seconds
    (storageType quiet : value) (n : Z) (s_built : state)
    (c : instance) (k : string) (f : producer) (s : state) (item v : value) (T : Z) :
  (Cache storageType (VNum (Num n)) quiet s_built).1 = inr c ->
  n <> 0 ->
  JSON.parse (get (storage c) (NAMESPACE +:+ k) s) = Some item ->
  member item "stored" = inr (VNum (Num T)) ->
  member item "value" = inr v ->
  TTL c = Num (1000 * n) /\
  (clock s <= T + 1000 * n ->
   settled (cache c k f s) = Resolved v /\ invoked (cache c k f s) = false) /\
  (clock s > T + 1000 * n -> invoked (cache c k f s) = true).
Proof.
  intros Hc Hn Hp Hs Hv.
  assert (Ht : TTL c = Num (1000 * n)).
  { rewrite (Cache_TTL _ _ _ _ _ Hc). unfold or_else. simpl ToBoolean.
    destruct (Z.eqb_spec n 0); [contradiction|]. simpl. f_equal. lia. }
  split; [exact Ht|].
  pose proof (read_item_numeric c _ (clock s) item T _ Ht Hp Hs) as Hr.
  rewrite Hv in Hr. split; intros Hage.
  - destruct (Z.ltb_spec (1000 * n) (clock s - T)); [lia|].
    now rewrite (cache_fresh _ _ _ _ _ Hr).
  - destruct (Z.ltb_spec (1000 * n) (clock s - T)); [|lia].
    now apply cache_stale_invoked.
Qed.

Lemma ttl_argument_is_in_seconds_witness :
  TTL one_minute = Num 60000 /\
  invoked (cache one_minute "rating" (returning (VStr "new"))
             (holding "gmlib|rating" rating_text (later 60000 s0))) = false /\
  invoked (cache one_minute "rating" (returning (VStr "new"))
             (holding "gmlib|rating" rating_text (later 60001 s0))) = true.
Proof.
  pose proof (ttl_argument_is_in_seconds (VStr "local") VUndefined 60 s0 one_minute
                "rating" (returning (VStr "new"))
                (holding "gmlib|rating" rating_text (later 60000 s0))
                (entry 1000 (VStr "8.9")) (VStr "8.9") 1000 eq_refl) as H1.
  pose proof (ttl_argument_is_in_seconds (VStr "local") VUndefined 60 s0 one_minute
                "rating" (returning (VStr "new"))
                (holding "gmlib|rating" rating_text (later 60001 s0))
                (entry 1000 (VStr "8.9")) (VStr "8.9") 1000 eq_refl) as H2.
  destruct H1 as (Ha & Hb & _); [discriminate | reflexivity | reflexivity | reflexivity|].
  destruct H2 as (_ & _ & Hc); [discriminate | reflexivity | reflexivity | reflexivity|].
  split; [exact Ha|]. split.
  - apply Hb. vm_compute. discriminate.
  - apply Hc. vm_compute. reflexivity.
Defined.

(** ** The scenario of the README

    [cache("rating", () => "8.9")] on an empty page storage invokes the
    producer and stores the entry; the same call one second later is
    served from the cache; after [clear()] the key is gone and the next
    call invokes the producer again. *)
Example readme_scenario :
  invoked (cache two_days "rating" (returning (VStr "8.9")) s0) = true /\
  localStorage (final (cache two_days "rating" (returning (VStr "8.9")) s0))
  = {[ "gmlib|rating" := rating_text ]} /\
  cache two_days "rating" (returning (VStr "8.9"))
    (holding "gmlib|rating" rating_text (later 1000 s0))
  = {| settled := Resolved (VStr "8.9"); invoked := false; logged := []; lost := None;
       final := holding "gmlib|rating" rating_text (later 1000 s0) |} /\
  localStorage (clear two_days VUndefined (holding "gmlib|rating" rating_text s0)).2 = ∅ /\
  invoked (cache two_days "rating" (returning (VStr "8.9"))
             (clear two_days VUndefined (holding "gmlib|rating" rating_text s0)).2) = true.
Proof. vm_compute. repeat split. Qed.

(** The raw entry [null]: reading [stored] off it throws inside the
    executor, the promise stays pending and the producer is not
    called. *)
Example null_entry_pending :
  settled (cache two_days "k" (returning (VStr "fresh")) (holding "gmlib|k" "null" s0))
  = Pending /\
  lost (cache two_days "k" (returning (VStr "fresh")) (holding "gmlib|k" "null" s0))
  = Some TypeError /\
  invoked (cache two_days "k" (returning (VStr "fresh")) (holding "gmlib|k" "null" s0))
  = false.
Proof. vm_compute. repeat split. Qed.

(** A raw entry that is not JSON: [JSON.parse] throws inside the
    executor, the promise stays pending and the producer is not
    called. *)
Example unparsable_entry_pending :
  settled (cache two_days "k" (returning (VStr "fresh")) (holding "gmlib|k" "oops" s0))
  = Pending /\
  lost (cache two_days "k" (returning (VStr "fresh")) (holding "gmlib|k" "oops" s0))
  = Some SyntaxError /\
  invoked (cache two_days "k" (returning (VStr "fresh")) (holding "gmlib|k" "oops" s0))
  = false.
Proof. vm_compute. repeat split. Qed.
